(** * vite-plugin-ssr: the prerender orchestrator and the client page loader

    A shallow embedding of the [prerender] command (with
    [writeHtmlDocument], [write], [normalizePrerenderResult],
    [getPluginManifest] and [assertArguments]) and of the client-side
    [getPageById], together with the properties the specification states
    about them. *)

From Stdlib Require Import ZArith Lia.
From stdpp Require Import base option list strings gmap.

Set Warnings "-register-all".
Open Scope string_scope.
Open Scope list_scope.

(** ** JavaScript values *)

(** The values that cross the boundaries of the modelled functions: what a
    [prerender()] hook returns, the exports of a loaded module, the content of
    the build manifest, the options of the command.  A plain object keeps its
    own enumerable properties in enumeration order. *)
Inductive JsValue : Type :=
  | JUndefined
  | JNull
  | JBool (b : bool)
  | JNum (n : Z)
  | JNaN
  | JStr (s : string)
  | JArr (elems : list JsValue)
  | JObj (props : list (string * JsValue))    (* plain object: [constructor === Object] *)
  | JInst (props : list (string * JsValue))   (* any other non-callable object *)
  | JFun (name : string).                     (* a callable: component, class, hook *)

(** A plain object as a property list. *)
Abbreviation Obj := (list (string * JsValue)).

Inductive JsType : Type :=
  TyUndefined | TyObject | TyBoolean | TyNumber | TyString | TyFunction.

(** [typeof v] *)
Definition typeof (v : JsValue) : JsType :=
  match v with
  | JUndefined => TyUndefined
  | JNull | JArr _ | JObj _ | JInst _ => TyObject
  | JBool _ => TyBoolean
  | JNum _ | JNaN => TyNumber
  | JStr _ => TyString
  | JFun _ => TyFunction
  end.

Definition JsType_eqb (a b : JsType) : bool :=
  match a, b with
  | TyUndefined, TyUndefined | TyObject, TyObject | TyBoolean, TyBoolean
  | TyNumber, TyNumber | TyString, TyString | TyFunction, TyFunction => true
  | _, _ => false
  end.

(** JavaScript's [ToBoolean]: what [if (v)], [!v] and [a || b] test. *)
Definition truthy (v : JsValue) : bool :=
  match v with
  | JUndefined | JNull | JNaN => false
  | JBool b => b
  | JNum n => negb (n =? 0)%Z
  | JStr s => negb (String.eqb s EmptyString)
  | JArr _ | JObj _ | JInst _ | JFun _ => true
  end.

(** [a || b] *)
Definition js_or (a b : JsValue) : JsValue := if truthy a then a else b.

(** The character [/]. *)
Definition slash : Ascii.ascii := Ascii.Ascii true true true true false true false false.

(** [s.startsWith(p)] *)
Definition startsWith (s p : string) : bool := String.prefix p s.

(** [part] occurs in [msg]. *)
Definition mentions (msg part : string) : Prop :=
  exists before after, msg = before +:+ part +:+ after.

(** ** Objects used as records and as dictionaries *)

Section Assoc.
Context {V : Type}.

(** [o[k]] on own properties *)
Fixpoint assoc_lookup (k : string) (o : list (string * V)) : option V :=
  match o with
  | [] => None
  | (k', v) :: o' => if String.eqb k k' then Some v else assoc_lookup k o'
  end.

(** [o[k] = v]: an existing key keeps its place, a new key goes last. *)
Fixpoint assoc_set (k : string) (v : V) (o : list (string * V)) : list (string * V) :=
  match o with
  | [] => [(k, v)]
  | (k', v') :: o' =>
      if String.eqb k k' then (k, v) :: o' else (k', v') :: assoc_set k v o'
  end.

(** [k in o] on own properties *)
Definition assoc_mem (k : string) (o : list (string * V)) : bool :=
  match assoc_lookup k o with Some _ => true | None => false end.

(** [{ ...a, ...b }] *)
Definition spread (a b : list (string * V)) : list (string * V) :=
  fold_left (fun acc kv => assoc_set kv.1 kv.2 acc) b a.

(** [Object.keys(o)] *)
Definition obj_keys (o : list (string * V)) : list string := map fst o.
End Assoc.

(** ** Errors *)

Inductive Err : Type :=
  | UsageError (msg : string)     (* thrown by [assertUsage] *)
  | InternalError                 (* thrown by [assert] *)
  | JsTypeError.                  (* thrown by the JavaScript runtime *)

Definition Result (A : Type) : Type := Err + A.

Definition isUsageError {A} (r : Result A) : bool :=
  match r with inl (UsageError _) => true | _ => false end.

Definition isOk {A} (r : Result A) : bool :=
  match r with inr _ => true | inl _ => false end.

(** The outcome of a computation that only throws usage errors: it succeeds
    when [b] holds and throws one otherwise. *)
Definition decides {A} (r : Result A) (b : bool) : Prop :=
  isOk r = b /\ (b = false -> isUsageError r = true).

Definition bindR {A B} (m : Result A) (f : A -> Result B) : Result B :=
  match m with
  | inl e => inl e
  | inr x => f x
  end.

Declare Scope result_scope.
Delimit Scope result_scope with result.
Notation "x <-? m ;; k" := (bindR m (fun x => k))
  (at level 100, m at next level, right associativity) : result_scope.
Notation "m ;;? k" := (bindR m (fun _ => k))
  (at level 100, right associativity) : result_scope.

(** Modelled from the spec: [assert] of [utils/assert] is not among the
    source files.  A failed [assert] is an internal failure, not a usage
    error. *)
Definition assert (c : bool) : Result unit :=
  if c then inr tt else inl InternalError.

(** Modelled from the spec: [assertUsage] of [utils/assert] is not among the
    source files.  A failed [assertUsage] is the spec's fatal UsageError; it
    carries the message. *)
Definition assertUsage (c : bool) (msg : string) : Result unit :=
  if c then inr tt else inl (UsageError msg).

(** The [in] operator.  Only own properties are modelled: none of the keys
    the code tests ([Page], [default], [url], [pageContext], [version],
    [base], [doesClientSideRouting]) is inherited from [Object.prototype] or
    [Array.prototype], nor is one an array index or [length].  The operator
    throws on a right operand that is not an object. *)
Definition js_in (k : string) (v : JsValue) : Result bool :=
  match v with
  | JObj o | JInst o => inr (assoc_mem k o)
  | JArr _ | JFun _ => inr false
  | _ => inl JsTypeError
  end.

(** [v.k] or [v[k]]: [undefined] for a missing property, a throw on [null]
    and [undefined]. *)
Definition js_get (v : JsValue) (k : string) : Result JsValue :=
  match v with
  | JObj o | JInst o => inr (default JUndefined (assoc_lookup k o))
  | JUndefined | JNull => inl JsTypeError
  | _ => inr JUndefined
  end.

(** Modelled from the spec: [isPlainObject] of [utils] is not among the
    source files.  It holds of plain JavaScript objects, those an object
    literal builds; not of [null], arrays, functions or other objects. *)
Definition isPlainObject (v : JsValue) : bool :=
  match v with JObj _ => true | _ => false end.

(** Modelled from the spec: [hasProp] of [utils] is not among the source
    files.  [hasProp(obj, prop)] holds when [obj] is an object other than
    [null] and [prop in obj]. *)
Definition hasProp (v : JsValue) (k : string) : bool :=
  match v with
  | JObj o | JInst o => assoc_mem k o
  | _ => false
  end.

(** ** The client-side page loader: [getPageById] *)

Module Client.

(** What [getPageFile('.page', pageId)] resolves to: the path of the page's
    view file and the exports that [loadFile()] yields. *)
Record PageFile : Type := {
  filePath : string;
  loadFile : JsValue
}.

Definition missingPageExport (path : string) : string :=
  path +:+ " should have a `export { Page }` (or a default export).".

Section GetPage.

(** [getPageFile] lives in [page-files/getPageFiles.shared]. *)
Variable getPageFile : string -> string -> option PageFile.

Local Open Scope result_scope.

Definition getPageById (pageId : string) : Result JsValue :=
  match getPageFile ".page" pageId with
  | None => inl InternalError                    (* assert(pageFile) *)
  | Some pageFile =>
      let fileExports := loadFile pageFile in
      ok <-? (if JsType_eqb (typeof fileExports) TyObject
              then hasPage <-? js_in "Page" fileExports ;;
                   if hasPage then inr true else js_in "default" fileExports
              else inr false) ;;
      assertUsage ok (missingPageExport (filePath pageFile)) ;;?
      page <-? js_get fileExports "Page" ;;
      dflt <-? js_get fileExports "default" ;;
      inr (js_or page dflt)
  end.

End GetPage.

End Client.

(** ** The client-side entry point: [getPage] *)

Module Browser.

(** The state of the browser that [getPage] reads, and the helpers it
    imports: [getUrlPathname()] and [getUrlFull()] when the module is
    loaded, [getUrlPathname()] when [assertPristineUrl] runs, the
    [pageContext] that the server serialized into the document,
    [addUrlToPageContext] of [utils] (as the object it leaves in
    [pageContext]), [getPageContextProxy], and [getPageFile]. *)
Record Window : Type := {
  urlPathnameOriginal : string;
  urlFullOriginal : string;
  urlPathnameCurrent : string;
  serializedPageContext : Obj;
  addUrlToPageContext : Obj -> string -> Obj;
  getPageContextProxy : Obj -> Obj;
  getPageFile : string -> string -> option Client.PageFile
}.

(** What [getPage] resolves to.  Reading [pageProps] runs a getter, whose
    outcome is the field. *)
Record PageResult : Type := {
  Page : JsValue;
  pageContext : Obj;
  pageProps : Result JsValue
}.

Definition pristineUrlMsg (original current : string) : string :=
  "`getPage()` returned page information for URL `" +:+ original +:+
  "` instead of `" +:+ current +:+
  "`. If you want to be able to change the URL (e.g. with `window.history.pushState`) while using `getPage()`, then create a new GitHub issue.".

Definition pagePropsMsg : string :=
  "`pageProps` in `const { pageProps } = await getPage()` has been replaced with `const { pageContext } = await getPage()`. The `setPageProps()` hook is deprecated: instead, return `pageProps` in your `addPageContext()` hook and use `passToClient = ['pageProps']` to pass `context.pageProps` to the browser. See `BREAKING CHANGE` in `CHANGELOG.md`.".

Section GetPage.

Variable win : Window.

Definition getPageInfo : Result (string * Obj) :=
  let pageContext := spread [] (serializedPageContext win) in
  let pageContext := addUrlToPageContext win pageContext (urlFullOriginal win) in
  match assoc_lookup "pageId" pageContext with
  | Some (JStr pageId) => inr (pageId, pageContext)
  | _ => inl InternalError           (* assert(typeof pageContext.pageId === 'string') *)
  end.

(** The warnings of [assertPristineUrl]. *)
Definition assertPristineUrl : list string :=
  if String.eqb (urlPathnameOriginal win) (urlPathnameCurrent win)
  then []
  else [pristineUrlMsg (urlPathnameOriginal win) (urlPathnameCurrent win)].

(** [getPage]: its outcome and the warnings it prints. *)
Definition getPage : Result PageResult * list string :=
  match getPageInfo with
  | inl e => (inl e, [])
  | inr (pageId, pageContext) =>
      if truthy (default JUndefined (assoc_lookup "urlFull" pageContext))
         && truthy (default JUndefined (assoc_lookup "urlPathname" pageContext))
      then
        match Client.getPageById (getPageFile win) pageId with
        | inl e => (inl e, [])
        | inr page =>
            (inr {| Page := page;
                    pageContext := getPageContextProxy win pageContext;
                    pageProps := assertUsage false pagePropsMsg ;;? inr JUndefined |},
             assertPristineUrl)
        end
      else (inl InternalError, [])
  end%result.

End GetPage.

(** The same window after the URL of the browser changed to the path [u]. *)
Definition navigated (win : Window) (u : string) : Window :=
  {| urlPathnameOriginal := urlPathnameOriginal win;
     urlFullOriginal := urlFullOriginal win;
     urlPathnameCurrent := u;
     serializedPageContext := serializedPageContext win;
     addUrlToPageContext := addUrlToPageContext win;
     getPageContextProxy := getPageContextProxy win;
     getPageFile := getPageFile win |}.

End Browser.

(** ** The prerender command *)

Module Prerender.

(** *** Effects *)

(** An awaited file-system operation of [fs.promises]. *)
Inductive IoOp : Type :=
  | Mkdir (path : string)                    (* mkdir(path, { recursive: true }) *)
  | WriteFile (path content : string).       (* writeFile(path, content) *)

(** What [console.log] prints (colours left out). *)
Inductive LogLine : Type :=
  | LogBanner (version : string)             (* vite-plugin-ssr <version> pre-rendering HTML... *)
  | LogRendered (count : nat)                (* <count> HTML documents pre-rendered. *)
  | LogWritten (filePathRelative : string).  (* dist/client/<file> *)

(** The observable steps of a run, in the order in which they happen. *)
Inductive Event : Type :=
  | EvLog (line : LogLine)
  | EvWarn (msg : string)
  | EvSetSsrEnv (root baseUrl : string)
  | EvGetPageIds
  | EvLoadPageRoutes
  | EvHook (sourceFile : string)
  | EvPrerenderPage (pageId : string) (pageContext : Obj) (url : string)
                    (skipAddPageContext pageContextNeeded : bool)
  | EvRenderStatic404Page
  | EvIssue (op : IoOp)                      (* the operation is started *)
  | EvDone (op : IoOp).                      (* its promise resolves *)

(** A computation that may throw and that appends to the trace of events; a
    throw keeps the trace reached so far. *)
Definition M (A : Type) : Type := list Event -> Result A * list Event.

Definition ret {A} (x : A) : M A := fun tr => (inr x, tr).

Definition bind {A B} (m : M A) (f : A -> M B) : M B :=
  fun tr =>
    match m tr with
    | (inl e, tr') => (inl e, tr')
    | (inr x, tr') => f x tr'
    end.

Definition throw {A} (e : Err) : M A := fun tr => (inl e, tr).

Definition emit (e : Event) : M unit := fun tr => (inr tt, tr ++ [e]).

Definition liftR {A} (r : Result A) : M A := fun tr => (r, tr).

Declare Scope prerender_scope.
Delimit Scope prerender_scope with prerender.
Notation "x <- m ;; k" := (bind m (fun x => k))
  (at level 100, m at next level, right associativity) : prerender_scope.
Notation "m ;; k" := (bind m (fun _ => k))
  (at level 100, right associativity) : prerender_scope.

(** The result and the events of a run started on an empty trace. *)
Definition run {A} (m : M A) : Result A * list Event := m [].

(** [await Promise.all(l.map(async (x) => ...))] and [l.forEach(...)] with an
    accumulator for the variables the callbacks update.  For a
    [Promise.all] the fold is one of its schedules: each task completes
    before the next one starts, and a throw ends the stage.  The event loop
    may complete the tasks in another order, and lets the other tasks go on
    after a rejection; so what is proved of the documents of a stage is
    stated up to a permutation, or for every order of the tasks.  The write
    phase, where the order matters, has the relations [DocWrites] and
    [WritePhase]. *)
Fixpoint foldM {A B} (f : A -> B -> M A) (l : list B) (a : A) : M A :=
  match l with
  | [] => ret a
  | x :: l' => bind (f a x) (foldM f l')
  end.

Fixpoint foldR {A B} (f : A -> B -> Result A) (l : list B) (a : A) : Result A :=
  match l with
  | [] => inr a
  | x :: l' => bindR (f a x) (foldR f l')
  end.

(** [l.map(f)] with an [f] that may throw *)
Fixpoint mapR {A B} (f : A -> Result B) (l : list A) : Result (list B) :=
  match l with
  | [] => inr []
  | x :: l' => bindR (f x) (fun y => bindR (mapR f l') (fun ys => inr (y :: ys)))
  end.

(** Modelled from the spec: [assertWarning] of [utils/assert] is not among
    the source files.  A warning is a non-fatal anomaly: it is logged when
    the condition fails and execution continues. *)
Definition assertWarning (c : bool) (msg : string) : M unit :=
  if c then ret tt else emit (EvWarn msg).

(** *** Data *)

Record HtmlDocument : Type := {
  url : string;
  htmlDocument : string;
  pageContextSerialized : option string;     (* [None] is [null] *)
  doNotCreateExtraDirectory : bool           (* [false] is the omitted field *)
}.

(** An element of [normalizePrerenderResult]'s result; [None] is the [null]
    recorded for an omitted [pageContext]. *)
Record Entry : Type := {
  entryUrl : string;
  entryPageContext : option Obj
}.

(** A value of the [prerenderData] dictionary. *)
Record PrerenderRecord : Type := {
  prerenderSourceFile : string;
  pageContext : Obj;
  noPrenderPageContext : bool
}.

(** The [prerenderData] dictionary, in the order of [Object.entries]. *)
Abbreviation PrerenderData := (list (string * PrerenderRecord)).

Record PluginManifest : Type := {
  manifestVersion : string;
  manifestBase : string;
  doesClientSideRouting : bool
}.

(** The route of a [.page.route] file: [typeof pageRoute === 'string'] or a
    route function. *)
Inductive PageRoute : Type :=
  | RouteString (route : string)
  | RouteFunction.

(** The [prerenderFunction] of a page: the file that defines the hook and the
    value that calling the hook resolves to. *)
Record PrerenderFunction : Type := {
  filePath : string;
  prerenderHook : JsValue
}.

Record RouteResult : Type := {
  pageId : string;
  pageContextAddendum : Obj
}.

Record Rendered : Type := {
  renderedHtml : string;
  renderedPageContext : option string
}.

(** The collaborators of [prerender] that live in other modules: the package
    version, the module system, the page registry and routes
    ([route.shared]), the render pipeline ([renderPage.node]) and Node's
    [path].  A field is what the collaborator returns or resolves to: runs
    in which a collaborator itself throws or rejects ([require] on a file
    that is not JSON, a hook that throws, a failing [mkdir] or [writeFile])
    are not among the runs described, and no property below is about
    them. *)
Record World : Type := {
  version : string;
  moduleExists : string -> bool;
  require : string -> JsValue;
  getPageIds : list string;
  isErrorPage : string -> bool;
  loadPageRoutes : gmap string PageRoute;
  getPageFunctions : string -> option PrerenderFunction;
  route : string -> list string -> Obj -> option RouteResult;
  prerenderPage : string -> Obj -> string -> bool -> bool -> Rendered;
  renderStatic404Page : option string;
  getFilesystemRoute : string -> list string -> string;
  isStaticRoute : string -> bool;
  sep : string;
  join : list string -> string;
  dirname : string -> string
}.

(** The arguments of [prerender], as passed by the caller. *)
Record Options : Type := {
  partial : JsValue;
  root : string;
  clientRouter : JsValue;
  base : JsValue
}.

(** A default parameter value replaces [undefined]. *)
Definition orDefault (v d : JsValue) : JsValue :=
  match v with JUndefined => d | _ => v end.

(** *** Messages *)

Definition typeName (t : JsType) : string :=
  match t with
  | TyUndefined => "undefined"
  | TyObject => "object"
  | TyBoolean => "boolean"
  | TyNumber => "number"
  | TyString => "string"
  | TyFunction => "function"
  end.

Definition errMsg1 (prerenderSourceFile : string) : string :=
  "The `prerender()` hook defined in `" +:+ prerenderSourceFile +:+
  "` returned an invalid value".

Definition errMsg2 : string :=
  "Make sure your `prerender()` hook returns an object `{ url, pageContext }` or an array of such objects.".

Definition invalidValueMsg (f : string) : string :=
  errMsg1 f +:+ ". " +:+ errMsg2.

Definition urlMissingMsg (f : string) : string :=
  errMsg1 f +:+ ": `url` is missing. " +:+ errMsg2.

Definition urlTypeMsg (f : string) (t : JsType) : string :=
  errMsg1 f +:+ ": unexpected `url` of type `" +:+ typeName t +:+ "`.".

Definition urlSlashMsg (f u : string) : string :=
  errMsg1 f +:+ ": the `url` with value `" +:+ u +:+
  "` doesn't start with `/`. Make sure each URL starts with `/`.".

Definition unexpectedKeyMsg (f key : string) : string :=
  errMsg1 f +:+ ": unexpected object key `" +:+ key +:+ "` " +:+ errMsg2.

Definition invalidPageContextMsg (f : string) : string :=
  "The `prerender()` hook exported by " +:+ f +:+
  " returned an invalid `pageContext` value: make sure `pageContext` is a plain JavaScript object.".

Definition noRouteMatchMsg (f u : string) : string :=
  "The `prerender()` hook defined in `" +:+ f +:+ " returns an URL `" +:+ u +:+
  "` that doesn't match any page route. Make sure the URLs returned by `prerender()` hooks to always match the URL of a page.".

Definition nonStaticRouteMsg (pageId : string) : string :=
  "Cannot pre-render page `" +:+ pageId +:+
  ".page.*` because it has a non-static route and no `prerender()` hook returned (an) URL(s) matching the page's route. Use the --partial option to suppress this warning.".

Definition manifestMissingMsg (pluginManifestPath : string) : string :=
  "You are trying to run `$ vite-plugin-ssr prerender` but you didn't build your app yet: make sure to run `$ vite build && vite build --ssr` before running the pre-rendering. (Following build manifest is missing: `" +:+
  pluginManifestPath +:+ "`.)".

Definition versionMismatchMsg (running built : string) : string :=
  "Remove `dist/` and re-build your app `$ vite build && vite build --ssr && vite-plugin-ssr prerender`. (You are using `vite-plugin-ssr@" +:+
  running +:+
  "` but your build has been generated with a different version `vite-plugin-ssr@" +:+
  built +:+ "`.)".

Definition partialOptionMsg : string :=
  "[prerender()] Option `partial` should be a boolean.".

Definition clientRouterOptionMsg : string :=
  "[prerender()] Option `clientRouter` is deprecated and has no-effect.".

Definition baseOptionMsg : string :=
  "[prerender()] Option `base` is deprecated and has no-effect.".

(** *** [normalizePrerenderResult] *)

Local Open Scope result_scope.

Definition isNull (v : JsValue) : bool :=
  match v with JNull => true | _ => false end.

(** The [pageContext] of a normalized element, which is [null] or a plain
    object once the last [assertUsage] of [normalize] has passed. *)
Definition asPageContext (v : JsValue) : option Obj :=
  match v with JObj o => Some o | _ => None end.

Definition normalize (prerenderSourceFile : string) (prerenderElement : JsValue)
  : Result Entry :=
  match prerenderElement with
  | JStr s => inr {| entryUrl := s; entryPageContext := None |}
  | _ =>
      assertUsage (isPlainObject prerenderElement)
                  (invalidValueMsg prerenderSourceFile) ;;?
      assertUsage (hasProp prerenderElement "url")
                  (urlMissingMsg prerenderSourceFile) ;;?
      urlValue <-? js_get prerenderElement "url" ;;
      match urlValue with
      | JStr u =>
          assertUsage (startsWith u "/") (urlSlashMsg prerenderSourceFile u) ;;?
          foldR (fun _ key =>
                   assertUsage (String.eqb key "url" || String.eqb key "pageContext")
                               (unexpectedKeyMsg prerenderSourceFile key))
                (match prerenderElement with JObj o => obj_keys o | _ => [] end)
                tt ;;?
          let prerenderElement' :=
            if negb (hasProp prerenderElement "pageContext")
            then match prerenderElement with
                 | JObj o => JObj (spread o [("pageContext", JNull)])
                 | _ => prerenderElement
                 end
            else prerenderElement in
          pc <-? js_get prerenderElement' "pageContext" ;;
          assertUsage (hasProp prerenderElement' "pageContext"
                       && (isNull pc || isPlainObject pc))
                      (invalidPageContextMsg prerenderSourceFile) ;;?
          inr {| entryUrl := u; entryPageContext := asPageContext pc |}
      | _ =>                (* typeof prerenderElement.url !== 'string' *)
          inl (UsageError (urlTypeMsg prerenderSourceFile (typeof urlValue)))
      end
  end.

Definition normalizePrerenderResult (prerenderResult : JsValue)
  (prerenderSourceFile : string) : Result (list Entry) :=
  match prerenderResult with
  | JArr elems => mapR (normalize prerenderSourceFile) elems
  | _ => el <-? normalize prerenderSourceFile prerenderResult ;; inr [el]
  end.

(** *** [getPluginManifest] and [assertArguments] *)

(** The options without the deprecated ones. *)
Definition withoutDeprecated (o : Options) : Options :=
  {| partial := partial o; root := root o;
     clientRouter := JUndefined; base := JUndefined |}.

Definition pluginManifestPathOf (root : string) : string :=
  root +:+ "/dist/client/vite-plugin-ssr.json".

Definition asBool (v : JsValue) : option bool :=
  match v with JBool b => Some b | _ => None end.

Definition asString (v : JsValue) : option string :=
  match v with JStr s => Some s | _ => None end.

Section WithWorld.

Variable w : World.

(** The [version] stored in the result is the [version] in scope, which is
    the one imported from [package.json]: the destructuring of
    [manifestContent] only binds [base] and [doesClientSideRouting]. *)
Definition getPluginManifest (root : string)
  : Result (option PluginManifest * string) :=
  let pluginManifestPath := pluginManifestPathOf root in
  if negb (moduleExists w pluginManifestPath)
  then inr (None, pluginManifestPath)
  else
    let manifestContent := require w pluginManifestPath in
    assert (hasProp manifestContent "version") ;;?
    assert (hasProp manifestContent "base") ;;?
    assert (hasProp manifestContent "doesClientSideRouting") ;;?
    base <-? js_get manifestContent "base" ;;
    routing <-? js_get manifestContent "doesClientSideRouting" ;;
    match asBool routing, asString base with
    | Some routing', Some base' =>
        inr (Some {| manifestVersion := version w;
                     manifestBase := base';
                     doesClientSideRouting := routing' |},
             pluginManifestPath)
    | _, _ => inl InternalError
    end.

Local Open Scope prerender_scope.

Definition assertArguments (partial clientRouter base : JsValue) : M unit :=
  liftR (assertUsage (match partial with JBool _ => true | _ => false end)
                     partialOptionMsg) ;;
  assertWarning (match clientRouter with JBool false => true | _ => false end)
                clientRouterOptionMsg ;;
  assertWarning (match base with JUndefined => true | _ => false end)
                baseOptionMsg.

(** *** Collecting the URLs of the [prerender()] hooks *)

(** The body of [result.forEach(({ url, pageContext }) => ...)].  The guard
    of the initialisation tests the key ['url'], as the source does.  The two
    type assertions on [url] and [pageContext] hold of every [Entry]. *)
Definition addEntry (sourceFile : string) (prerenderData : PrerenderData)
  (e : Entry) : Result PrerenderData :=
  let u := entryUrl e in
  (assert (startsWith u "/") ;;?
   let prerenderData1 :=
     if negb (assoc_mem "url" prerenderData)
     then assoc_set u {| prerenderSourceFile := sourceFile;
                         pageContext := [];
                         noPrenderPageContext := true |} prerenderData
     else prerenderData in
   match entryPageContext e with
   | Some pc =>
       match assoc_lookup u prerenderData1 with
       | Some r =>
           inr (assoc_set u {| prerenderSourceFile := prerenderSourceFile r;
                               pageContext := spread (pageContext r) pc;
                               noPrenderPageContext := false |} prerenderData1)
       | None => inl JsTypeError      (* prerenderData[url] is undefined *)
       end
   | None => inr prerenderData1
   end)%result.

(** The task of one page in the first [Promise.all]. *)
Definition collectPage (prerenderData : PrerenderData) (pageId : string)
  : M PrerenderData :=
  match getPageFunctions w pageId with
  | None => ret prerenderData
  | Some prerenderFunction =>
      let prerenderSourceFile := filePath prerenderFunction in
      emit (EvHook prerenderSourceFile) ;;
      result <- liftR (normalizePrerenderResult (prerenderHook prerenderFunction)
                                                prerenderSourceFile) ;;
      liftR (foldR (addEntry prerenderSourceFile) result prerenderData)
  end.

(** *** Rendering *)

Definition renderedDocument (u : string) (r : Rendered) : HtmlDocument :=
  {| url := u;
     htmlDocument := renderedHtml r;
     pageContextSerialized := renderedPageContext r;
     doNotCreateExtraDirectory := false |}.

(** The task of one URL in the second [Promise.all]; the accumulator holds
    [htmlDocuments] and [renderedPageIds]. *)
Definition renderUrl (allPageIds : list string) (pageContextNeeded : bool)
  (acc : list HtmlDocument * gset string) (kv : string * PrerenderRecord)
  : M (list HtmlDocument * gset string) :=
  let u := kv.1 in
  let r := kv.2 in
  match route w u allPageIds (pageContext r) with
  | None => throw (UsageError (noRouteMatchMsg (prerenderSourceFile r) u))
  | Some routeResult =>
      let pageContext' := spread (pageContext r) (pageContextAddendum routeResult) in
      let skipAddPageContext := negb (noPrenderPageContext r) in
      emit (EvPrerenderPage (pageId routeResult) pageContext' u
                            skipAddPageContext pageContextNeeded) ;;
      let rendered := prerenderPage w (pageId routeResult) pageContext' u
                                    skipAddPageContext pageContextNeeded in
      ret (acc.1 ++ [renderedDocument u rendered],
           {[ pageId routeResult ]} ∪ acc.2)
  end.

Definition staticPageContext : Obj := [("routeParams", JObj [])].

Definition renderAt (pageContextNeeded : bool) (htmlDocuments : list HtmlDocument)
  (pageId u : string) : M (list HtmlDocument) :=
  emit (EvPrerenderPage pageId staticPageContext u false pageContextNeeded) ;;
  let rendered := prerenderPage w pageId staticPageContext u false
                                pageContextNeeded in
  ret (htmlDocuments ++ [renderedDocument u rendered]).

(** The task of one page in the third [Promise.all]. *)
Definition renderStaticPage (partial : bool) (allPageIds : list string)
  (pageContextNeeded : bool) (htmlDocuments : list HtmlDocument)
  (pageId : string) : M (list HtmlDocument) :=
  match loadPageRoutes w !! pageId with
  | None =>
      let u := getFilesystemRoute w pageId allPageIds in
      liftR (assert (startsWith u "/")) ;;
      renderAt pageContextNeeded htmlDocuments pageId u
  | Some (RouteString pageRoute) =>
      if isStaticRoute w pageRoute
      then liftR (assert (startsWith pageRoute "/")) ;;
           renderAt pageContextNeeded htmlDocuments pageId pageRoute
      else assertWarning partial (nonStaticRouteMsg pageId) ;;
           ret htmlDocuments
  | Some RouteFunction =>
      assertWarning partial (nonStaticRouteMsg pageId) ;;
      ret htmlDocuments
  end.

Definition has404 (htmlDocuments : list HtmlDocument) : bool :=
  existsb (fun d => String.eqb (url d) "/404") htmlDocuments.

Definition static404Document (html : string) : HtmlDocument :=
  {| url := "/404";
     htmlDocument := html;
     pageContextSerialized := None;
     doNotCreateExtraDirectory := true |}.

Definition renderFallback404 (htmlDocuments : list HtmlDocument)
  : M (list HtmlDocument) :=
  if negb (has404 htmlDocuments)
  then emit EvRenderStatic404Page ;;
       match renderStatic404Page w with
       | Some html => ret (htmlDocuments ++ [static404Document html])
       | None => ret htmlDocuments
       end
  else ret htmlDocuments.

(** *** Writing the documents *)

(** The string without the slash that may end it. *)
Fixpoint stripTrailingSlash (s : string) : string :=
  match s with
  | EmptyString => EmptyString
  | String c EmptyString => if Ascii.eqb c slash then EmptyString else s
  | String c s' => String c (stripTrailingSlash s')
  end.

(** Modelled from the spec: [getFileUrl] of [utils] is not among the source
    files.  The file of URL [/x/y] is [/x/y/index.html], or [/x/y.html] when
    [doNotCreateExtraDirectory] is set, and likewise with the extension
    [.pageContext.json]; a slash that ends the URL is not doubled. *)
Definition getFileUrl (u fileExtension : string) (doNotCreateExtraDirectory : bool)
  : string :=
  if doNotCreateExtraDirectory
  then stripTrailingSlash u +:+ fileExtension
  else stripTrailingSlash u +:+ "/index" +:+ fileExtension.

(** [s.slice(1)] *)
Definition slice1 (s : string) : string :=
  match s with
  | EmptyString => EmptyString
  | String _ s' => s'
  end.

(** [s.split('/').join(separator)] *)
Fixpoint splitJoin (separator s : string) : string :=
  match s with
  | EmptyString => EmptyString
  | String c s' =>
      (if Ascii.eqb c slash then separator else String c EmptyString)
      +:+ splitJoin separator s'
  end.

(** A call of [write] that has reached its first [await]. *)
Record WriteJob : Type := {
  jobDirectory : string;
  jobFilePath : string;
  jobContent : string;
  jobFilePathRelative : string
}.

(** [write] up to the call of [mkdirp]. *)
Definition startWrite (u fileExtension fileContent root : string)
  (doNotCreateExtraDirectory : bool) : Result WriteJob :=
  (let fileUrl := getFileUrl u fileExtension doNotCreateExtraDirectory in
   assert (startsWith fileUrl "/") ;;?
   let filePathRelative := splitJoin (sep w) (slice1 fileUrl) in
   assert (negb (startsWith filePathRelative (sep w))) ;;?
   let filePath := join w [root; "dist"; "client"; filePathRelative] in
   inr {| jobDirectory := dirname w filePath;
          jobFilePath := filePath;
          jobContent := fileContent;
          jobFilePathRelative := filePathRelative |})%result.

(** The path that [write] gives to the file of a URL and an extension. *)
Definition filePathFor (u fileExtension root : string)
  (doNotCreateExtraDirectory : bool) : string :=
  join w [root; "dist"; "client";
          splitJoin (sep w)
            (slice1 (getFileUrl u fileExtension doNotCreateExtraDirectory))].

(** [write] runs in three uninterrupted stretches: the call, which issues
    [mkdir]; the resumption after [mkdir], which issues [writeFile]; the
    resumption after [writeFile], which logs the file. *)
Definition writeIssued (j : WriteJob) : list Event :=
  [EvIssue (Mkdir (jobDirectory j))].

Definition writeResumed (j : WriteJob) : list (list Event) :=
  [ [EvDone (Mkdir (jobDirectory j));
     EvIssue (WriteFile (jobFilePath j) (jobContent j))];
    [EvDone (WriteFile (jobFilePath j) (jobContent j));
     EvLog (LogWritten (jobFilePathRelative j))] ].

(** The [writeJobs] array: every call of [write] is made before the array is
    awaited. *)
Definition writeCalls (d : HtmlDocument) (root : string) : list (Result WriteJob) :=
  startWrite (url d) ".html" (htmlDocument d) root (doNotCreateExtraDirectory d)
  :: match pageContextSerialized d with
     | Some serialized =>
         [startWrite (url d) ".pageContext.json" serialized root
                     (doNotCreateExtraDirectory d)]
     | None => []
     end.

Fixpoint started {A} (calls : list (Result A)) : list A :=
  match calls with
  | [] => []
  | inr j :: calls' => j :: started calls'
  | inl _ :: calls' => started calls'
  end.

Fixpoint firstRejection {A} (calls : list (Result A)) : option Err :=
  match calls with
  | [] => None
  | inl e :: _ => Some e
  | inr _ :: calls' => firstRejection calls'
  end.

Definition emits (es : list Event) : M unit := fun tr => (inr tt, tr ++ es).

(** [writeHtmlDocument], with the resumptions of the jobs taken job after
    job; [DocWrites] below has every order the event loop may take. *)
Definition writeHtmlDocument (d : HtmlDocument) (root : string) : M unit :=
  liftR (assert (startsWith (url d) "/")) ;;
  let calls := writeCalls d root in
  emits (concat (map writeIssued (started calls))) ;;
  match firstRejection calls with
  | Some e => throw e
  | None => emits (concat (concat (map writeResumed (started calls))))
  end.

(** *** [prerender] *)

Definition prerender (o : Options) : M unit :=
  let partial := orDefault (partial o) (JBool false) in
  let clientRouter := orDefault (clientRouter o) (JBool false) in
  let root := root o in
  assertArguments partial clientRouter (base o) ;;
  emit (EvLog (LogBanner (version w))) ;;
  manifest <- liftR (getPluginManifest root) ;;
  match manifest.1 with
  | None => throw (UsageError (manifestMissingMsg manifest.2))
  | Some pluginManifest =>
      liftR (assertUsage (String.eqb (manifestVersion pluginManifest) (version w))
               (versionMismatchMsg (version w) (manifestVersion pluginManifest))) ;;
      let pageContextNeeded := doesClientSideRouting pluginManifest in
      let baseUrl := manifestBase pluginManifest in
      emit (EvSetSsrEnv root baseUrl) ;;
      emit EvGetPageIds ;;
      let allPageIds := filter (fun pageId => isErrorPage w pageId = false)
                               (getPageIds w) in
      emit EvLoadPageRoutes ;;
      prerenderData <- foldM collectPage allPageIds [] ;;
      rendered <- foldM (renderUrl allPageIds pageContextNeeded)
                        prerenderData ([], ∅) ;;
      let renderedPageIds := rendered.2 in
      htmlDocuments <-
        foldM (renderStaticPage (truthy partial) allPageIds pageContextNeeded)
              (filter (fun pageId => pageId ∉ renderedPageIds) allPageIds)
              rendered.1 ;;
      htmlDocuments <- renderFallback404 htmlDocuments ;;
      emit (EvLog (LogRendered (length htmlDocuments))) ;;
      foldM (fun _ htmlDoc => writeHtmlDocument htmlDoc root) htmlDocuments tt
  end.


(** *** The two halves of [prerender] *)

(** [prerender] up to the end of the first [Promise.all]: the value of
    [pageContextNeeded], [allPageIds] and [prerenderData]. *)
Definition gatherUrls (o : Options) : M (bool * list string * PrerenderData) :=
  let partial := orDefault (partial o) (JBool false) in
  let clientRouter := orDefault (clientRouter o) (JBool false) in
  let root := root o in
  assertArguments partial clientRouter (base o) ;;
  emit (EvLog (LogBanner (version w))) ;;
  manifest <- liftR (getPluginManifest root) ;;
  match manifest.1 with
  | None => throw (UsageError (manifestMissingMsg manifest.2))
  | Some pluginManifest =>
      liftR (assertUsage (String.eqb (manifestVersion pluginManifest) (version w))
               (versionMismatchMsg (version w) (manifestVersion pluginManifest))) ;;
      let pageContextNeeded := doesClientSideRouting pluginManifest in
      let baseUrl := manifestBase pluginManifest in
      emit (EvSetSsrEnv root baseUrl) ;;
      emit EvGetPageIds ;;
      let allPageIds := filter (fun pageId => isErrorPage w pageId = false)
                               (getPageIds w) in
      emit EvLoadPageRoutes ;;
      prerenderData <- foldM collectPage allPageIds [] ;;
      ret (pageContextNeeded, allPageIds, prerenderData)
  end.

(** [prerender] from the second [Promise.all] on. *)
Definition renderAndWrite (o : Options) (gathered : bool * list string * PrerenderData)
  : M unit :=
  let partial := orDefault (partial o) (JBool false) in
  let root := root o in
  let pageContextNeeded := gathered.1.1 in
  let allPageIds := gathered.1.2 in
  let prerenderData := gathered.2 in
  rendered <- foldM (renderUrl allPageIds pageContextNeeded)
                    prerenderData ([], ∅) ;;
  let renderedPageIds := rendered.2 in
  htmlDocuments <-
    foldM (renderStaticPage (truthy partial) allPageIds pageContextNeeded)
          (filter (fun pageId => pageId ∉ renderedPageIds) allPageIds)
          rendered.1 ;;
  htmlDocuments <- renderFallback404 htmlDocuments ;;
  emit (EvLog (LogRendered (length htmlDocuments))) ;;
  foldM (fun _ htmlDoc => writeHtmlDocument htmlDoc root) htmlDocuments tt.

(** [prerender] from the test for a [/404] document on. *)
Definition fallbackAndWrite (root : string) (htmlDocuments : list HtmlDocument)
  : M unit :=
  htmlDocuments <- renderFallback404 htmlDocuments ;;
  emit (EvLog (LogRendered (length htmlDocuments))) ;;
  foldM (fun _ htmlDoc => writeHtmlDocument htmlDoc root) htmlDocuments tt.

End WithWorld.

(** *** The write phase under every schedule *)

(** Every order in which pending sequences may be consumed, one head at a
    time: the orders in which the event loop may resume pending jobs. *)
Inductive Interleave {A : Type} : list (list A) -> list A -> Prop :=
  | interleave_done pending :
      Forall (fun l => l = []) pending -> Interleave pending []
  | interleave_step before x l after tr :
      Interleave (before ++ l :: after) tr ->
      Interleave (before ++ (x :: l) :: after) (x :: tr).

Section Schedules.

Variable w : World.

(** The events of [await writeHtmlDocument(d, root)], and whether it
    returned ([true]) or threw ([false]).  The calls of [write] issue their
    [mkdir] in the order of [writeJobs]; a rejected call makes
    [Promise.all] reject before any pending operation is done; otherwise the
    jobs are resumed in any order until all are finished. *)
Inductive DocWrites (d : HtmlDocument) (root : string)
  : bool -> list Event -> Prop :=
  | doc_bad_url :
      startsWith (url d) "/" = false ->
      DocWrites d root false []
  | doc_rejected e :
      startsWith (url d) "/" = true ->
      firstRejection (writeCalls w d root) = Some e ->
      DocWrites d root false
                (concat (map writeIssued (started (writeCalls w d root))))
  | doc_written stretches :
      startsWith (url d) "/" = true ->
      firstRejection (writeCalls w d root) = None ->
      Interleave (map writeResumed (started (writeCalls w d root))) stretches ->
      DocWrites d root true
                (concat (map writeIssued (started (writeCalls w d root)))
                 ++ concat stretches).

(** The events of [for (const htmlDoc of htmlDocuments) await
    writeHtmlDocument(htmlDoc, root)], each with the index of the document
    it belongs to; the first index is [i]. *)
Inductive WritePhase (root : string)
  : nat -> list HtmlDocument -> list (nat * Event) -> Prop :=
  | phase_end i :
      WritePhase root i [] []
  | phase_abort i d ds t :
      DocWrites d root false t ->
      WritePhase root i (d :: ds) (map (pair i) t)
  | phase_next i d ds t tr :
      DocWrites d root true t ->
      WritePhase root (S i) ds tr ->
      WritePhase root i (d :: ds) (map (pair i) t ++ tr).

End Schedules.

(** An I/O operation is started or finished by the event. *)
Definition isIo (e : Event) : bool :=
  match e with EvIssue _ | EvDone _ => true | _ => false end.

Definition isWriteEvent (e : Event) : bool :=
  match e with
  | EvIssue _ | EvDone _ | EvLog (LogWritten _) => true
  | _ => false
  end.

(** The files that the events say were written: the path and the content
    of every finished [writeFile]. *)
Definition filesWritten (t : list Event) : list (string * string) :=
  flat_map (fun e => match e with
                     | EvDone (WriteFile path content) => [(path, content)]
                     | _ => []
                     end) t.

(** A computation that only appends events, none of which belongs to the
    writing of a file. *)
Definition quiet {A} (m : M A) : Prop :=
  forall tr, exists more,
    snd (m tr) = tr ++ more /\ Forall (fun e => isWriteEvent e = false) more.

(** The warnings of [assertArguments] about the deprecated options. *)
Definition deprecationWarnings (clientRouter base : JsValue) : list Event :=
  (match orDefault clientRouter (JBool false) with
   | JBool false => []
   | _ => [EvWarn clientRouterOptionMsg]
   end)
  ++ (match base with
      | JUndefined => []
      | _ => [EvWarn baseOptionMsg]
      end).

(** A computation whose outcome does not depend on the events that came
    before, and that only appends to them. *)
Definition uniform {A} (m : M A) : Prop :=
  forall tr, m tr = (fst (m []), tr ++ snd (m [])).

(** A computation that only appends events, all of which belong to the
    writing of a file. *)
Definition loud {A} (m : M A) : Prop :=
  forall tr, exists more,
    snd (m tr) = tr ++ more /\ Forall (fun e => isWriteEvent e = true) more.

(** A computation whose events are first events that do not belong to the
    writing of a file and then events that do; when a file is written, the
    event just before the writing is the log of the number of documents. *)
Definition phased {A} (m : M A) : Prop :=
  forall tr, exists before writes,
    snd (m tr) = tr ++ before ++ writes
    /\ Forall (fun e => isWriteEvent e = false) before
    /\ Forall (fun e => isWriteEvent e = true) writes
    /\ (writes <> [] ->
        exists rest count, before = rest ++ [EvLog (LogRendered count)]).

(** Every key of [prerenderData] starts with a slash, so none is [url]. *)
Definition slashKeys (prerenderData : PrerenderData) : Prop :=
  forall u r, In (u, r) prerenderData -> startsWith u "/" = true.

(** The hook defined in file [f], of one of the pages [pageIds], returned a
    value that normalizes to entries among which is the URL [u]. *)
Definition declaredBy (w : World) (pageIds : list string) (u f : string) : Prop :=
  exists page fn entries,
    In page pageIds
    /\ getPageFunctions w page = Some fn
    /\ filePath fn = f
    /\ normalizePrerenderResult (prerenderHook fn) f = inr entries
    /\ In u (map entryUrl entries).

End Prerender.

(** ** A small site *)

(** Three pages and an error page, on a POSIX file system: [index] is routed
    by the file system, [about] has the static route string [/about],
    [movie] has the parameterized route string [/movie/:movieId] and defines
    the [prerender()] hook. *)
Module Demo.
Import Prerender.

Definition posixJoin (parts : list string) : string := String.concat "/" parts.

Fixpoint beforeLastSlash (s : string) : option string :=
  match s with
  | EmptyString => None
  | String c s' =>
      match beforeLastSlash s' with
      | Some d => Some (String c d)
      | None => if Ascii.eqb c slash then Some EmptyString else None
      end
  end.

Definition posixDirname (s : string) : string :=
  match beforeLastSlash s with
  | Some EmptyString => "/"
  | Some d => d
  | None => "."
  end.

Fixpoint hasColon (s : string) : bool :=
  match s with
  | EmptyString => false
  | String c s' => Ascii.eqb c (Ascii.Ascii false true false true true true false false)
                   || hasColon s'
  end.

Definition manifestOf (built : string) : JsValue :=
  JObj [("version", JStr built); ("base", JStr "/");
        ("doesClientSideRouting", JBool true)].

Definition movieRoute (u : string) : option RouteResult :=
  if String.eqb u "/" then
    Some {| pageId := "/pages/index"; pageContextAddendum := [("routeParams", JObj [])] |}
  else if String.eqb u "/about" then
    Some {| pageId := "/pages/about"; pageContextAddendum := [("routeParams", JObj [])] |}
  else if String.prefix "/movie/" u then
    Some {| pageId := "/pages/movie";
            pageContextAddendum :=
              [("routeParams",
                JObj [("movieId", JStr (String.substring 7 (String.length u - 7) u))])] |}
  else None.

Definition site (manifest : option JsValue) (hook : JsValue) : World :=
  {| version := "0.1.0";
     moduleExists := fun p =>
       match manifest with
       | Some _ => String.eqb p "/app/dist/client/vite-plugin-ssr.json"
       | None => false
       end;
     require := fun _ => default JUndefined manifest;
     getPageIds := ["/pages/index"; "/pages/about"; "/pages/movie"; "/pages/_error"];
     isErrorPage := fun p => String.eqb p "/pages/_error";
     loadPageRoutes :=
       <["/pages/about" := RouteString "/about"]>
         (<["/pages/movie" := RouteString "/movie/:movieId"]> ∅);
     getPageFunctions := fun p =>
       if String.eqb p "/pages/movie"
       then Some {| filePath := "/pages/movie.page.server.js"; prerenderHook := hook |}
       else None;
     route := fun u _ _ => movieRoute u;
     prerenderPage := fun _ _ u _ needed =>
       {| renderedHtml := "<html>" +:+ u +:+ "</html>";
          renderedPageContext := if needed then Some "{}" else None |};
     renderStatic404Page := Some "<html>404</html>";
     getFilesystemRoute := fun p _ =>
       if String.eqb p "/pages/index" then "/" else p;
     isStaticRoute := fun r => negb (hasColon r);
     sep := "/";
     join := posixJoin;
     dirname := posixDirname |}.

(** Two results of the [prerender()] hook that name [/movie/2] twice. *)
Definition movieTitle : JsValue :=
  JObj [("url", JStr "/movie/2"); ("pageContext", JObj [("title", JStr "X")])].

Definition movieYear : JsValue :=
  JObj [("url", JStr "/movie/2"); ("pageContext", JObj [("year", JNum 1999)])].

Definition titleThenYear : JsValue := JArr [movieTitle; movieYear].

Definition titleThenBare : JsValue := JArr [movieTitle; JStr "/movie/2"].

(** A result of the hook that names a URL of no page. *)
Definition bogus : JsValue := JObj [("url", JStr "/bogus")].

(** Two documents, and a schedule of their writing in which the sidecar of
    the first document is resumed before its [.html] file. *)
Definition movieDocument : HtmlDocument :=
  {| url := "/movie/2";
     htmlDocument := "<html>/movie/2</html>";
     pageContextSerialized := Some "{}";
     doNotCreateExtraDirectory := false |}.

Definition notFoundDocument : HtmlDocument := static404Document "<html>404</html>".

Definition sidecarFirst : list Event :=
  [ EvIssue (Mkdir "/app/dist/client/movie/2");
    EvIssue (Mkdir "/app/dist/client/movie/2");
    EvDone (Mkdir "/app/dist/client/movie/2");
    EvIssue (WriteFile "/app/dist/client/movie/2/index.pageContext.json" "{}");
    EvDone (Mkdir "/app/dist/client/movie/2");
    EvIssue (WriteFile "/app/dist/client/movie/2/index.html" "<html>/movie/2</html>");
    EvDone (WriteFile "/app/dist/client/movie/2/index.pageContext.json" "{}");
    EvLog (LogWritten "movie/2/index.pageContext.json");
    EvDone (WriteFile "/app/dist/client/movie/2/index.html" "<html>/movie/2</html>");
    EvLog (LogWritten "movie/2/index.html") ].

Definition notFoundWritten : list Event :=
  [ EvIssue (Mkdir "/app/dist/client");
    EvDone (Mkdir "/app/dist/client");
    EvIssue (WriteFile "/app/dist/client/404.html" "<html>404</html>");
    EvDone (WriteFile "/app/dist/client/404.html" "<html>404</html>");
    EvLog (LogWritten "404.html") ].

Definition options (partial : JsValue) : Options :=
  {| partial := partial; root := "/app"; clientRouter := JUndefined; base := JUndefined |}.

(** The site with other routes. *)
Definition withRoutes (w : World) (routes : gmap string PageRoute) : World :=
  {| version := version w;
     moduleExists := moduleExists w;
     require := require w;
     getPageIds := getPageIds w;
     isErrorPage := isErrorPage w;
     loadPageRoutes := routes;
     getPageFunctions := getPageFunctions w;
     route := route w;
     prerenderPage := prerenderPage w;
     renderStatic404Page := renderStatic404Page w;
     getFilesystemRoute := getFilesystemRoute w;
     isStaticRoute := isStaticRoute w;
     sep := sep w;
     join := join w;
     dirname := dirname w |}.

Definition pageFiles (exports : JsValue) : string -> string -> option Client.PageFile :=
  fun _ pageId =>
    if String.eqb pageId "/pages/index"
    then Some {| Client.filePath := "/pages/index.page.jsx";
                 Client.loadFile := exports |}
    else None.


(** The browser on the index page, with the exports of its page file. *)
Definition window (exports : JsValue) : Browser.Window :=
  {| Browser.urlPathnameOriginal := "/";
     Browser.urlFullOriginal := "/?lang=en";
     Browser.urlPathnameCurrent := "/";
     Browser.serializedPageContext := [("pageId", JStr "/pages/index")];
     Browser.addUrlToPageContext := fun pageContext urlFull =>
       spread pageContext [("urlFull", JStr urlFull); ("urlPathname", JStr "/")];
     Browser.getPageContextProxy := fun pageContext => pageContext;
     Browser.getPageFile := pageFiles exports |}.

End Demo.

(** ** The specification's reading of the hook contract *)

Module Spec.
Import Prerender.

(** The static-enumeration hook contract: a bare string; a plain object
    with a string [url] that starts with [/], no key other than [url] and
    [pageContext], and a [pageContext] that, when present, is [null] or a
    plain object; or an array of such values. *)
Definition onlyKnownKeys (o : Obj) : bool :=
  forallb (fun key => String.eqb key "url" || String.eqb key "pageContext")
          (obj_keys o).

Definition acceptedPageContext (o : Obj) : bool :=
  match assoc_lookup "pageContext" o with
  | None | Some JNull | Some (JObj _) => true
  | Some _ => false
  end.

Definition acceptedObject (v : JsValue) : bool :=
  match v with
  | JObj o =>
      match assoc_lookup "url" o with
      | Some (JStr u) => startsWith u "/" && onlyKnownKeys o && acceptedPageContext o
      | _ => false
      end
  | _ => false
  end.

Definition acceptedElement (v : JsValue) : bool :=
  match v with
  | JStr _ => true
  | _ => acceptedObject v
  end.

Definition acceptedValue (v : JsValue) : bool :=
  match v with
  | JArr elems => forallb acceptedElement elems
  | _ => acceptedElement v
  end.

(** The first key of an object that the hook contract does not know. *)
Definition firstUnknownKey (o : Obj) : option string :=
  List.find (fun key => negb (String.eqb key "url" || String.eqb key "pageContext"))
            (obj_keys o).

(** The entry that stands for an element of a hook's result: the URL is the
    bare string or the [url] property; the [pageContext] is the plain object
    given, and [null] when the property is [null] or left out. *)
Definition entryFor (el : JsValue) (e : Entry) : Prop :=
  match el with
  | JStr s => e = {| entryUrl := s; entryPageContext := None |}
  | JObj o =>
      assoc_lookup "url" o = Some (JStr (entryUrl e))
      /\ entryPageContext e
         = match assoc_lookup "pageContext" o with
           | Some (JObj pc) => Some pc
           | _ => None
           end
  | _ => False
  end.

(** Static resolution of a page: the URL derived from the file system when
    the page has no route definition, the route string when it is static,
    and no URL for a parameterized route string or a route function. *)
Definition staticUrl (w : World) (allPageIds : list string) (page : string)
  : option string :=
  match loadPageRoutes w !! page with
  | None => Some (getFilesystemRoute w page allPageIds)
  | Some (RouteString pageRoute) =>
      if isStaticRoute w pageRoute then Some pageRoute else None
  | Some RouteFunction => None
  end.

(** What static resolution produces for a page: the document rendered at
    the static URL, with the [addPageContext] step not skipped; or nothing. *)
Definition staticDocuments (w : World) (allPageIds : list string) (needed : bool)
  (page : string) : list HtmlDocument :=
  match staticUrl w allPageIds page with
  | Some u =>
      [renderedDocument u (prerenderPage w page staticPageContext u false needed)]
  | None => []
  end.

(** What static resolution does for a page: one call of the render pipeline;
    or a warning, unless [partial] is set. *)
Definition staticEvents (w : World) (partial : bool) (allPageIds : list string)
  (needed : bool) (page : string) : list Event :=
  match staticUrl w allPageIds page with
  | Some u => [EvPrerenderPage page staticPageContext u false needed]
  | None => if partial then [] else [EvWarn (nonStaticRouteMsg page)]
  end.

End Spec.

(** * Properties *)

(** ** Strings, dictionaries, results *)

Lemma prefix_append (s t : string) : String.prefix s (s +:+ t) = true.
Proof.
  induction s as [|c s IH]; simpl.
  - destruct t; reflexivity.
  - destruct (Ascii.ascii_dec c c) as [_|Hne]; [exact IH | contradiction].
Qed.

Lemma startsWith_slash_cons (s : string) :
  startsWith s "/" = true -> exists s', s = String slash s'.
Proof.
  unfold startsWith. destruct s as [|c s']; cbn [String.prefix]; [discriminate|].
  change (Ascii.Ascii true true true true false true false false) with slash.
  destruct (Ascii.ascii_dec slash c) as [<-|]; [eauto | discriminate].
Qed.

Lemma startsWith_slash_ne_url (s : string) :
  startsWith s "/" = true -> String.eqb "url" s = false.
Proof.
  intros [s' ->]%startsWith_slash_cons. reflexivity.
Qed.

Section AssocFacts.
Context {V : Type}.
Implicit Types (o : list (string * V)) (k : string) (v : V).

Lemma assoc_lookup_set_eq k v o : assoc_lookup k (assoc_set k v o) = Some v.
Proof.
  induction o as [|[k' v'] o IH]; simpl.
  - rewrite String.eqb_refl. reflexivity.
  - destruct (String.eqb k k') eqn:E; simpl; rewrite ?String.eqb_refl, ?E; auto.
Qed.

Lemma assoc_lookup_set_ne k k' v o :
  k <> k' -> assoc_lookup k' (assoc_set k v o) = assoc_lookup k' o.
Proof.
  intros Hne. induction o as [|[k0 v0] o IH]; simpl.
  - destruct (String.eqb_spec k' k); [congruence | reflexivity].
  - destruct (String.eqb_spec k k0) as [->|]; simpl.
    + destruct (String.eqb_spec k' k0); [congruence | reflexivity].
    + destruct (String.eqb_spec k' k0); [reflexivity | exact IH].
Qed.

Lemma assoc_mem_set_ne k k' v o :
  k <> k' -> assoc_mem k' (assoc_set k v o) = assoc_mem k' o.
Proof. intros. unfold assoc_mem. rewrite assoc_lookup_set_ne; auto. Qed.

Lemma assoc_mem_true k o : assoc_mem k o = true <-> exists v, assoc_lookup k o = Some v.
Proof.
  unfold assoc_mem. destruct (assoc_lookup k o); split; eauto; intros H.
  - discriminate.
  - destruct H; discriminate.
Qed.

Lemma assoc_mem_false k o : assoc_mem k o = false <-> assoc_lookup k o = None.
Proof. unfold assoc_mem. destruct (assoc_lookup k o); split; congruence. Qed.

Lemma assoc_lookup_In k v o : assoc_lookup k o = Some v -> In (k, v) o.
Proof.
  induction o as [|[k' v'] o IH]; simpl; [discriminate|].
  destruct (String.eqb_spec k k') as [->|]; intros H.
  - left. congruence.
  - right. auto.
Qed.

Lemma In_assoc_set k v o k0 v0 :
  In (k0, v0) (assoc_set k v o) -> (k0 = k /\ v0 = v) \/ In (k0, v0) o.
Proof.
  induction o as [|[k' v'] o IH]; simpl.
  - intros [H|[]]. left. split; congruence.
  - destruct (String.eqb_spec k k') as [->|]; simpl.
    + intros [H|H]; [left; split; congruence | right; right; exact H].
    + intros [H|H]; [right; left; exact H |].
      destruct (IH H) as [?|?]; [left | right; right]; assumption.
Qed.

End AssocFacts.

(** ** [getPageById] *)

Section ClientFacts.
Import Client.
Variable getPageFile : string -> string -> option PageFile.

Lemma getPageById_object pageId pf o :
  getPageFile ".page" pageId = Some pf ->
  loadFile pf = JObj o \/ loadFile pf = JInst o ->
  getPageById getPageFile pageId =
    if assoc_mem "Page" o || assoc_mem "default" o
    then inr (js_or (default JUndefined (assoc_lookup "Page" o))
                    (default JUndefined (assoc_lookup "default" o)))
    else inl (UsageError (missingPageExport (filePath pf))).
Proof.
  intros Hfile Hobj. unfold getPageById. rewrite Hfile.
  destruct Hobj as [-> | ->]; cbn [typeof JsType_eqb js_in js_get bindR];
    destruct (assoc_mem "Page" o); cbn [orb assertUsage bindR]; try reflexivity;
    destruct (assoc_mem "default" o); reflexivity.
Qed.

Lemma getPageById_not_object pageId pf :
  getPageFile ".page" pageId = Some pf ->
  (forall o, loadFile pf <> JObj o) -> (forall o, loadFile pf <> JInst o) ->
  loadFile pf <> JNull ->
  getPageById getPageFile pageId = inl (UsageError (missingPageExport (filePath pf))).
Proof.
  intros Hfile Ho Hi Hn. unfold getPageById. rewrite Hfile.
  destruct (loadFile pf); try reflexivity; congruence.
Qed.

(** C9: for a loaded page file, [getPageById] throws a usage error, whose
    message starts with the path of the file, exactly when the exports
    expose neither [Page] nor [default]; when one of the two is exposed it
    returns a page, which is the value of [fileExports.Page || fileExports.default]:
    the [Page] export when it is truthy, and the [default] export of a
    module that does not export [Page]. *)
Theorem getPageById_usage_error_iff pageId pf :
  getPageFile ".page" pageId = Some pf ->
  loadFile pf <> JNull ->
  let exposes := hasProp (loadFile pf) "Page" || hasProp (loadFile pf) "default" in
  (exposes = false <->
     getPageById getPageFile pageId
     = inl (UsageError (missingPageExport (filePath pf))))
  /\ (exposes = false <-> isUsageError (getPageById getPageFile pageId) = true)
  /\ (exposes = true <-> exists page, getPageById getPageFile pageId = inr page)
  /\ String.prefix (filePath pf) (missingPageExport (filePath pf)) = true
  /\ (exposes = true ->
        exists o, (loadFile pf = JObj o \/ loadFile pf = JInst o)
          /\ getPageById getPageFile pageId
             = inr (js_or (default JUndefined (assoc_lookup "Page" o))
                          (default JUndefined (assoc_lookup "default" o))))
  /\ (forall o page, loadFile pf = JObj o \/ loadFile pf = JInst o ->
        assoc_lookup "Page" o = Some page -> truthy page = true ->
        getPageById getPageFile pageId = inr page)
  /\ (forall o dflt, loadFile pf = JObj o \/ loadFile pf = JInst o ->
        assoc_lookup "Page" o = None -> assoc_lookup "default" o = Some dflt ->
        getPageById getPageFile pageId = inr dflt).
Proof.
  intros Hfile Hnull exposes.
  assert (Hcases :
    (exposes = false /\
     getPageById getPageFile pageId
     = inl (UsageError (missingPageExport (filePath pf))))
    \/ (exposes = true /\ exists page, getPageById getPageFile pageId = inr page)).
  { subst exposes. destruct (loadFile pf) eqn:E;
      try (left; split; [reflexivity |
             apply getPageById_not_object; auto; rewrite E; congruence]);
      try congruence.
    - rewrite (getPageById_object pageId pf props Hfile (or_introl E)).
      cbn [hasProp].
      destruct (assoc_mem "Page" props || assoc_mem "default" props); eauto.
    - rewrite (getPageById_object pageId pf props Hfile (or_intror E)).
      cbn [hasProp].
      destruct (assoc_mem "Page" props || assoc_mem "default" props); eauto. }
  assert (Hvalue : forall o, loadFile pf = JObj o \/ loadFile pf = JInst o ->
            exposes = assoc_mem "Page" o || assoc_mem "default" o).
  { intros o [E | E]; subst exposes; rewrite E; reflexivity. }
  split; [|split; [|split; [|split; [|split; [|split]]]]].
  - destruct Hcases as [[He Hr] | [He [page Hr]]]; rewrite ?Hr, ?He;
      split; congruence.
  - destruct Hcases as [[He Hr] | [He [page Hr]]]; rewrite ?Hr, ?He;
      simpl; split; congruence.
  - destruct Hcases as [[He Hr] | [He [page Hr]]]; rewrite ?Hr, ?He;
      split; try intros [? ?]; eauto; congruence.
  - apply prefix_append.
  - intros He. destruct (loadFile pf) as [| |b|z| |s|l|o|o|n] eqn:E;
      try discriminate He.
    + exists o. split; [left; reflexivity |].
      rewrite (getPageById_object pageId pf o Hfile (or_introl E)).
      rewrite <- (Hvalue o (or_introl eq_refl)), He. reflexivity.
    + exists o. split; [right; reflexivity |].
      rewrite (getPageById_object pageId pf o Hfile (or_intror E)).
      rewrite <- (Hvalue o (or_intror eq_refl)), He. reflexivity.
  - intros o page Hobj Hp Ht.
    rewrite (getPageById_object pageId pf o Hfile Hobj).
    assert (Hm : assoc_mem "Page" o = true) by (apply assoc_mem_true; eauto).
    rewrite Hm, Hp. unfold js_or. simpl. rewrite Ht. reflexivity.
  - intros o dflt Hobj Hp Hd.
    rewrite (getPageById_object pageId pf o Hfile Hobj).
    assert (Hm : assoc_mem "default" o = true) by (apply assoc_mem_true; eauto).
    rewrite Hm, orb_true_r, Hp, Hd. reflexivity.
Qed.

(** C10: when the exports expose [default], a truthy [Page] export is what
    [getPageById] returns; the [default] export is returned when [Page] is
    exposed with a falsy value and when [Page] is not exposed. *)
Theorem getPageById_prefers_Page pageId pf o dflt :
  getPageFile ".page" pageId = Some pf ->
  loadFile pf = JObj o \/ loadFile pf = JInst o ->
  assoc_lookup "default" o = Some dflt ->
  (forall page, assoc_lookup "Page" o = Some page -> truthy page = true ->
     getPageById getPageFile pageId = inr page)
  /\ (forall page, assoc_lookup "Page" o = Some page -> truthy page = false ->
        getPageById getPageFile pageId = inr dflt)
  /\ (assoc_lookup "Page" o = None -> getPageById getPageFile pageId = inr dflt).
Proof.
  intros Hfile Hobj Hd.
  rewrite (getPageById_object pageId pf o Hfile Hobj).
  assert (Hm : assoc_mem "default" o = true) by (apply assoc_mem_true; eauto).
  rewrite Hm, orb_true_r, Hd. unfold js_or.
  repeat split.
  - intros page -> Ht. simpl. rewrite Ht. reflexivity.
  - intros page -> Ht. simpl. rewrite Ht. reflexivity.
  - intros ->. reflexivity.
Qed.

End ClientFacts.

Lemma getPageById_usage_error_iff_witness :
  Client.getPageById (Demo.pageFiles (JObj [("Page", JFun "Page")]))
                     "/pages/index" = inr (JFun "Page")
  /\ Client.getPageById (Demo.pageFiles (JObj [("default", JFun "Other")]))
                        "/pages/index" = inr (JFun "Other")
  /\ Client.getPageById (Demo.pageFiles (JObj [("render", JFun "render")]))
                        "/pages/index"
     = inl (UsageError (Client.missingPageExport "/pages/index.page.jsx")).
Proof.
  split; [|split].
  - exact (proj1 (proj2 (proj2 (proj2 (proj2 (proj2
             (getPageById_usage_error_iff
                (Demo.pageFiles (JObj [("Page", JFun "Page")])) "/pages/index"
                {| Client.filePath := "/pages/index.page.jsx";
                   Client.loadFile := JObj [("Page", JFun "Page")] |}
                eq_refl ltac:(discriminate)))))))
           [("Page", JFun "Page")] (JFun "Page") (or_introl eq_refl) eq_refl eq_refl).
  - exact (proj2 (proj2 (proj2 (proj2 (proj2 (proj2
             (getPageById_usage_error_iff
                (Demo.pageFiles (JObj [("default", JFun "Other")])) "/pages/index"
                {| Client.filePath := "/pages/index.page.jsx";
                   Client.loadFile := JObj [("default", JFun "Other")] |}
                eq_refl ltac:(discriminate)))))))
           [("default", JFun "Other")] (JFun "Other") (or_introl eq_refl) eq_refl eq_refl).
  - apply (proj1 (getPageById_usage_error_iff
             (Demo.pageFiles (JObj [("render", JFun "render")])) "/pages/index"
             {| Client.filePath := "/pages/index.page.jsx";
                Client.loadFile := JObj [("render", JFun "render")] |}
             eq_refl ltac:(discriminate))).
    reflexivity.
Defined.

Lemma getPageById_prefers_Page_witness :
  Client.getPageById
    (Demo.pageFiles (JInst [("Page", JFun "Page"); ("default", JFun "Other")]))
    "/pages/index" = inr (JFun "Page")
  /\ Client.getPageById
       (Demo.pageFiles (JInst [("Page", JStr EmptyString); ("default", JFun "Other")]))
       "/pages/index" = inr (JFun "Other").
Proof.
  split.
  - exact (proj1 (getPageById_prefers_Page
             (Demo.pageFiles (JInst [("Page", JFun "Page"); ("default", JFun "Other")]))
             "/pages/index"
             {| Client.filePath := "/pages/index.page.jsx";
                Client.loadFile := JInst [("Page", JFun "Page"); ("default", JFun "Other")] |}
             [("Page", JFun "Page"); ("default", JFun "Other")] (JFun "Other")
             eq_refl (or_intror eq_refl) eq_refl)
           (JFun "Page") eq_refl eq_refl).
  - exact (proj1 (proj2 (getPageById_prefers_Page
             (Demo.pageFiles (JInst [("Page", JStr EmptyString); ("default", JFun "Other")]))
             "/pages/index"
             {| Client.filePath := "/pages/index.page.jsx";
                Client.loadFile := JInst [("Page", JStr EmptyString); ("default", JFun "Other")] |}
             [("Page", JStr EmptyString); ("default", JFun "Other")] (JFun "Other")
             eq_refl (or_intror eq_refl) eq_refl))
           (JStr EmptyString) eq_refl eq_refl).
Defined.

(** ** [normalizePrerenderResult] *)

Section NormalizeFacts.
Import Prerender.
Variable f : string.

Lemma decides_ok {A} (x : A) : decides (inr x) true.
Proof. split; [reflexivity | discriminate]. Qed.

Lemma decides_usage {A} msg : decides (inl (UsageError msg) : Result A) false.
Proof. split; reflexivity. Qed.

Lemma decides_bind {A B} (r : Result A) (k : A -> Result B) (b c : bool) :
  decides r b -> (forall x, r = inr x -> decides (k x) c) ->
  decides (bindR r k) (b && c).
Proof.
  intros [H1 H2] Hk. destruct r as [e|x]; cbn in H1; subst b; cbn [bindR andb].
  - split; [reflexivity | intros _; exact (H2 eq_refl)].
  - exact (Hk x eq_refl).
Qed.

Lemma decides_assertUsage (c : bool) (msg : string) : decides (assertUsage c msg) c.
Proof. destruct c; [apply decides_ok | apply decides_usage]. Qed.

Lemma known_keys_decide (keys : list string) :
  decides
    (foldR (fun (_ : unit) key =>
              assertUsage (String.eqb key "url" || String.eqb key "pageContext")
                          (unexpectedKeyMsg f key)) keys tt)
    (forallb (fun key => String.eqb key "url" || String.eqb key "pageContext") keys).
Proof.
  induction keys as [|key keys IH]; cbn [foldR forallb].
  - apply decides_ok.
  - apply decides_bind; [apply decides_assertUsage | intros [] _; exact IH].
Qed.

Lemma pageContext_decides (u : string) (o : Obj) :
  decides
    (let prerenderElement' :=
       if negb (hasProp (JObj o) "pageContext")
       then JObj (spread o [("pageContext", JNull)])
       else JObj o in
     bindR (js_get prerenderElement' "pageContext") (fun pc =>
     bindR (assertUsage (hasProp prerenderElement' "pageContext"
                         && (isNull pc || isPlainObject pc))
                        (invalidPageContextMsg f)) (fun _ =>
     inr {| entryUrl := u; entryPageContext := asPageContext pc |})))
    (Spec.acceptedPageContext o).
Proof.
  unfold Spec.acceptedPageContext. cbv zeta. cbn [hasProp]. unfold assoc_mem.
  destruct (assoc_lookup "pageContext" o) as [pc|] eqn:Hpc;
    cbn [negb js_get hasProp bindR].
  - unfold assoc_mem. rewrite Hpc. cbn [default from_option id andb].
    destruct pc; cbn [isNull isPlainObject orb assertUsage bindR];
      first [apply decides_ok | apply decides_usage].
  - change (spread o [("pageContext", JNull)])
      with (assoc_set "pageContext" JNull o).
    unfold assoc_mem. rewrite assoc_lookup_set_eq. cbn. apply decides_ok.
Qed.

Lemma normalize_object (o : Obj) :
  decides (normalize f (JObj o)) (Spec.acceptedObject (JObj o)).
Proof.
  unfold normalize, Spec.acceptedObject.
  cbn [isPlainObject assertUsage bindR hasProp js_get].
  unfold assoc_mem at 1.
  destruct (assoc_lookup "url" o) as [urlValue|] eqn:Hurl;
    cbn [assertUsage bindR default from_option id typeof]; [|apply decides_usage].
  destruct urlValue; try apply decides_usage.
  rewrite <- andb_assoc.
  apply decides_bind; [apply decides_assertUsage | intros [] _].
  apply decides_bind; [apply known_keys_decide | intros [] _].
  apply pageContext_decides.
Qed.

Lemma normalize_element (v : JsValue) :
  decides (normalize f v) (Spec.acceptedElement v).
Proof.
  destruct v; try (apply decides_usage).
  - apply decides_ok.
  - apply normalize_object.
Qed.

Lemma mapR_decides (elems : list JsValue) :
  decides (mapR (normalize f) elems) (forallb Spec.acceptedElement elems).
Proof.
  induction elems as [|v elems IH]; cbn [mapR forallb].
  - apply decides_ok.
  - apply decides_bind; [apply normalize_element | intros entry _].
    rewrite <- (andb_true_r (forallb _ elems)).
    apply decides_bind; [exact IH | intros entries _; apply decides_ok].
Qed.

(** C4: [normalizePrerenderResult] succeeds exactly on the values of the hook
    contract (a bare string, a well-formed object, an array of these); on
    every other value it throws a usage error; a bare string gives one entry
    whose [pageContext] is recorded as [null]. *)
Theorem normalizePrerenderResult_contract (v : JsValue) :
  isOk (normalizePrerenderResult v f) = Spec.acceptedValue v
  /\ (Spec.acceptedValue v = false ->
      isUsageError (normalizePrerenderResult v f) = true)
  /\ (forall s, v = JStr s ->
      normalizePrerenderResult v f
      = inr [{| entryUrl := s; entryPageContext := None |}]).
Proof.
  assert (H : decides (normalizePrerenderResult v f) (Spec.acceptedValue v)).
  { unfold normalizePrerenderResult, Spec.acceptedValue.
    destruct v; try apply mapR_decides;
      match goal with
      | |- decides (bindR (normalize f ?x) _) ?b =>
          rewrite <- (andb_true_r b);
          apply decides_bind;
          [apply normalize_element | intros entry _; apply decides_ok]
      end. }
  destruct H as [H1 H2]. repeat split; auto.
  intros s ->. reflexivity.
Qed.

End NormalizeFacts.

(** ** The monad of [prerender] *)

Section MonadFacts.
Import Prerender.

Lemma bind_assoc {A B C} (m : M A) (k : A -> M B) (h : B -> M C) tr :
  bind (bind m k) h tr = bind m (fun x => bind (k x) h) tr.
Proof. unfold bind. destruct (m tr) as [[e|x] tr']; reflexivity. Qed.

Lemma bind_cong {A B} (m : M A) (k k' : A -> M B) tr :
  (forall x tr', k x tr' = k' x tr') -> bind m k tr = bind m k' tr.
Proof. intros H. unfold bind. destruct (m tr) as [[e|x] tr']; auto. Qed.

Lemma bind_inr {A B} (m : M A) (k : A -> M B) tr y tr' :
  bind m k tr = (inr y, tr') ->
  exists x tr1, m tr = (inr x, tr1) /\ k x tr1 = (inr y, tr').
Proof.
  unfold bind. destruct (m tr) as [[e|x] tr1]; [discriminate | eauto].
Qed.

Lemma foldM_app {A B} (step : A -> B -> M A) (l1 l2 : list B) (a : A) tr :
  foldM step (l1 ++ l2) a tr = bind (foldM step l1 a) (foldM step l2) tr.
Proof.
  revert a tr. induction l1 as [|x l1 IH]; intros a tr; cbn [foldM app].
  - reflexivity.
  - rewrite bind_assoc. unfold bind at 1 2.
    destruct (step a x tr) as [[e|a'] tr']; [reflexivity | apply IH].
Qed.

End MonadFacts.

Section QuietFacts.
Import Prerender.

Lemma quiet_ret {A} (x : A) : quiet (ret x).
Proof. intros tr. exists []. rewrite app_nil_r. split; [reflexivity | constructor]. Qed.

Lemma quiet_throw {A} (e : Err) : quiet (throw e : M A).
Proof. intros tr. exists []. rewrite app_nil_r. split; [reflexivity | constructor]. Qed.

Lemma quiet_liftR {A} (r : Result A) : quiet (liftR r).
Proof. intros tr. exists []. rewrite app_nil_r. split; [reflexivity | constructor]. Qed.

Lemma quiet_emit (e : Event) : isWriteEvent e = false -> quiet (emit e).
Proof. intros He tr. exists [e]. split; [reflexivity | repeat constructor; exact He]. Qed.

Lemma quiet_bind {A B} (m : M A) (k : A -> M B) :
  quiet m -> (forall x, quiet (k x)) -> quiet (bind m k).
Proof.
  intros Hm Hk tr. unfold bind. destruct (Hm tr) as (more & E & F).
  destruct (m tr) as [[e|x] tr']; cbn [snd] in *; subst tr'.
  - exists more. split; [reflexivity | exact F].
  - destruct (Hk x (tr ++ more)) as (more' & E' & F').
    exists (more ++ more'). rewrite E', app_assoc. split; [reflexivity|].
    apply Forall_app; split; assumption.
Qed.

Lemma quiet_foldM {A B} (step : A -> B -> M A) (l : list B) :
  (forall a x, quiet (step a x)) -> forall a, quiet (foldM step l a).
Proof.
  intros Hstep. induction l as [|x l IH]; intros a; cbn [foldM].
  - apply quiet_ret.
  - apply quiet_bind; auto.
Qed.

Lemma quiet_assertWarning c msg : quiet (assertWarning c msg).
Proof. destruct c; [apply quiet_ret | apply quiet_emit; reflexivity]. Qed.

End QuietFacts.

(** ** Collecting the URLs of the hooks *)

Section CollectFacts.
Import Prerender.
Variable w : World.

Lemma assoc_set_set {V} k (v1 v2 : V) o :
  assoc_set k v2 (assoc_set k v1 o) = assoc_set k v2 o.
Proof.
  induction o as [|[k' v'] o IH]; simpl.
  - rewrite String.eqb_refl. reflexivity.
  - destruct (String.eqb k k') eqn:E; simpl; rewrite ?String.eqb_refl, ?E;
      [reflexivity | f_equal; exact IH].
Qed.

(** What [addEntry] does when no URL is the string [url]: the record of the
    entry's URL is rebuilt from this entry alone, whatever was recorded for
    the URL before. *)
Lemma addEntry_overwrites (f : string) (prerenderData : PrerenderData) (e : Entry) :
  assoc_mem "url" prerenderData = false ->
  startsWith (entryUrl e) "/" = true ->
  addEntry f prerenderData e
  = inr (assoc_set (entryUrl e)
           {| prerenderSourceFile := f;
              pageContext := spread [] (default [] (entryPageContext e));
              noPrenderPageContext :=
                match entryPageContext e with Some _ => false | None => true end |}
           prerenderData).
Proof.
  intros Hurl Hslash. unfold addEntry. rewrite Hslash, Hurl.
  cbn [assert bindR negb].
  destruct (entryPageContext e) as [pc|]; cbn [default from_option id].
  - rewrite assoc_lookup_set_eq. cbn [prerenderSourceFile pageContext].
    rewrite assoc_set_set. reflexivity.
  - reflexivity.
Qed.

Lemma slashKeys_no_url prerenderData :
  slashKeys prerenderData -> assoc_mem "url" prerenderData = false.
Proof.
  intros Hk. apply assoc_mem_false.
  destruct (assoc_lookup "url" prerenderData) as [r|] eqn:E; [|reflexivity].
  apply assoc_lookup_In in E. apply Hk in E. discriminate.
Qed.

Lemma foldR_app {A B} (step : A -> B -> Result A) (l1 l2 : list B) (a : A) :
  foldR step (l1 ++ l2) a = bindR (foldR step l1 a) (foldR step l2).
Proof.
  revert a. induction l1 as [|x l1 IH]; intros a; cbn [foldR app bindR].
  - reflexivity.
  - destruct (step a x) as [e|a']; cbn [bindR]; [reflexivity | apply IH].
Qed.

Lemma addEntry_provenance f prerenderData e prerenderData' :
  slashKeys prerenderData ->
  addEntry f prerenderData e = inr prerenderData' ->
  slashKeys prerenderData'
  /\ forall u r, In (u, r) prerenderData' ->
       In (u, r) prerenderData \/ (u = entryUrl e /\ prerenderSourceFile r = f).
Proof.
  intros Hk Hadd.
  destruct (startsWith (entryUrl e) "/") eqn:Hslash.
  - rewrite addEntry_overwrites in Hadd by auto using slashKeys_no_url.
    injection Hadd as <-.
    assert (Hin : forall u r,
      In (u, r) (assoc_set (entryUrl e)
                   {| prerenderSourceFile := f;
                      pageContext := spread [] (default [] (entryPageContext e));
                      noPrenderPageContext :=
                        match entryPageContext e with Some _ => false | None => true end |}
                   prerenderData) ->
      In (u, r) prerenderData \/ (u = entryUrl e /\ prerenderSourceFile r = f)).
    { intros u r [[-> ->]|H]%In_assoc_set; [right; split; reflexivity | left; exact H]. }
    split; [|exact Hin].
    intros u r [H|[-> _]]%Hin; [exact (Hk u r H) | exact Hslash].
  - unfold addEntry in Hadd. rewrite Hslash in Hadd. discriminate.
Qed.

Lemma foldR_addEntry_provenance f entries : forall prerenderData prerenderData',
  slashKeys prerenderData ->
  foldR (addEntry f) entries prerenderData = inr prerenderData' ->
  slashKeys prerenderData'
  /\ forall u r, In (u, r) prerenderData' ->
       In (u, r) prerenderData
       \/ (In u (map entryUrl entries) /\ prerenderSourceFile r = f).
Proof.
  induction entries as [|e entries IH]; intros pd pd' Hk Hfold; cbn [foldR] in Hfold.
  - injection Hfold as <-. split; [exact Hk | auto].
  - destruct (addEntry f pd e) as [err|pd1] eqn:Hadd; [discriminate|].
    cbn [bindR] in Hfold.
    destruct (addEntry_provenance _ _ _ _ Hk Hadd) as [Hk1 Hin1].
    destruct (IH pd1 pd' Hk1 Hfold) as [Hk' Hin'].
    split; [exact Hk'|].
    intros u r [H|[H Hf]]%Hin'.
    + destruct (Hin1 u r H) as [?|[-> Hf]]; [left; assumption|].
      right. split; [left; reflexivity | exact Hf].
    + right. split; [right; exact H | exact Hf].
Qed.

(** X7: when the entries of a hook have been taken in, the record of the URL
    of the last entry is built from that entry alone: its [pageContext] is
    the entry's (empty when the entry has none) and [noPrenderPageContext]
    tells whether the entry had none, whatever earlier entries or hooks
    recorded for the URL. *)
Lemma last_entry_decides f entries e prerenderData prerenderData' :
  slashKeys prerenderData ->
  foldR (addEntry f) (entries ++ [e]) prerenderData = inr prerenderData' ->
  assoc_lookup (entryUrl e) prerenderData'
  = Some {| prerenderSourceFile := f;
            pageContext := spread [] (default [] (entryPageContext e));
            noPrenderPageContext :=
              match entryPageContext e with Some _ => false | None => true end |}.
Proof.
  intros Hk Hfold. rewrite foldR_app in Hfold.
  destruct (foldR (addEntry f) entries prerenderData) as [err|pd1] eqn:H1;
    [discriminate|].
  cbn [bindR foldR] in Hfold.
  destruct (foldR_addEntry_provenance _ _ _ _ Hk H1) as [Hk1 _].
  destruct (addEntry f pd1 e) as [err|pd2] eqn:H2; [discriminate|].
  cbn [bindR] in Hfold. injection Hfold as <-.
  destruct (startsWith (entryUrl e) "/") eqn:Hslash.
  - rewrite addEntry_overwrites in H2 by auto using slashKeys_no_url.
    injection H2 as <-. apply assoc_lookup_set_eq.
  - unfold addEntry in H2. rewrite Hslash in H2. discriminate.
Qed.

Lemma collectPage_provenance prerenderData page tr prerenderData' tr' :
  slashKeys prerenderData ->
  collectPage w prerenderData page tr = (inr prerenderData', tr') ->
  slashKeys prerenderData'
  /\ forall u r, In (u, r) prerenderData' ->
       In (u, r) prerenderData \/ declaredBy w [page] u (prerenderSourceFile r).
Proof.
  intros Hk Hc. unfold collectPage in Hc.
  destruct (getPageFunctions w page) as [fn|] eqn:Hfn.
  - unfold bind, emit, liftR in Hc.
    destruct (normalizePrerenderResult (prerenderHook fn) (filePath fn))
      as [err|entries] eqn:Hn; [discriminate|].
    injection Hc as Hfold _.
    destruct (foldR_addEntry_provenance _ _ _ _ Hk Hfold) as [Hk' Hin].
    split; [exact Hk'|].
    intros u r [H|[H Hf]]%Hin; [left; exact H | right].
    exists page, fn, entries. rewrite Hf. repeat split; auto. left. reflexivity.
  - injection Hc as <- _. auto.
Qed.

Lemma declaredBy_incl pageIds pageIds' u f :
  incl pageIds pageIds' -> declaredBy w pageIds u f -> declaredBy w pageIds' u f.
Proof.
  intros Hincl (page & fn & entries & Hp & H). exists page, fn, entries.
  split; [apply Hincl; exact Hp | exact H].
Qed.

Lemma collect_provenance allPageIds pageIds :
  forall prerenderData tr prerenderData' tr',
  incl pageIds allPageIds ->
  slashKeys prerenderData ->
  (forall u r, In (u, r) prerenderData ->
     declaredBy w allPageIds u (prerenderSourceFile r)) ->
  foldM (collectPage w) pageIds prerenderData tr = (inr prerenderData', tr') ->
  slashKeys prerenderData'
  /\ forall u r, In (u, r) prerenderData' ->
       declaredBy w allPageIds u (prerenderSourceFile r).
Proof.
  induction pageIds as [|page pageIds IH]; intros pd tr pd' tr' Hincl Hk Hd Hfold;
    cbn [foldM] in Hfold.
  - injection Hfold as <- _. auto.
  - unfold bind in Hfold.
    destruct (collectPage w pd page tr) as [[err|pd1] tr1] eqn:Hc; [discriminate|].
    destruct (collectPage_provenance _ _ _ _ _ Hk Hc) as [Hk1 Hin1].
    apply (IH pd1 tr1 pd' tr'); auto.
    + intros x Hx. apply Hincl. right. exact Hx.
    + intros u r [H|H]%Hin1; [auto|].
      apply (declaredBy_incl [page]); [|exact H].
      intros x [<-|[]]. apply Hincl. left. reflexivity.
Qed.

End CollectFacts.

(** ** The run as a whole *)

Section RunFacts.
Import Prerender.
Variable w : World.

Lemma prerender_stages (o : Options) tr :
  prerender w o tr = bind (gatherUrls w o) (renderAndWrite w o) tr.
Proof.
  unfold prerender, gatherUrls.
  do 3 (rewrite bind_assoc; apply bind_cong; intros ? ?).
  destruct (_.1) as [pluginManifest|]; [|reflexivity].
  do 5 (rewrite bind_assoc; apply bind_cong; intros ? ?).
  reflexivity.
Qed.

Lemma quiet_collectPage prerenderData page : quiet (collectPage w prerenderData page).
Proof.
  unfold collectPage. destruct (getPageFunctions w page); [|apply quiet_ret].
  apply quiet_bind; [apply quiet_emit; reflexivity | intros _].
  apply quiet_bind; [apply quiet_liftR | intros entries; apply quiet_liftR].
Qed.

Lemma quiet_gatherUrls (o : Options) : quiet (gatherUrls w o).
Proof.
  unfold gatherUrls, assertArguments.
  repeat first
    [ apply quiet_ret | apply quiet_throw | apply quiet_liftR
    | apply quiet_assertWarning
    | apply quiet_emit; reflexivity
    | apply quiet_foldM; intros; apply quiet_collectPage
    | apply quiet_bind; [|intros ?]
    | match goal with |- quiet (match ?x with _ => _ end) => destruct x end ].
Qed.

Lemma quiet_renderUrl allPageIds needed acc kv :
  quiet (renderUrl w allPageIds needed acc kv).
Proof.
  unfold renderUrl. destruct (route w _ _ _); [|apply quiet_throw].
  apply quiet_bind; [apply quiet_emit; reflexivity | intros _; apply quiet_ret].
Qed.

(** The hooks' URLs that [gatherUrls] hands over start with a slash and
    each is recorded with the file of a hook that returned it. *)
Lemma gatherUrls_provenance (o : Options) tr needed allPageIds prerenderData tr' :
  gatherUrls w o tr = (inr (needed, allPageIds, prerenderData), tr') ->
  slashKeys prerenderData
  /\ forall u r, In (u, r) prerenderData ->
       declaredBy w allPageIds u (prerenderSourceFile r).
Proof.
  unfold gatherUrls. intros H.
  do 3 apply bind_inr in H as (? & ? & _ & H).
  destruct (_.1) as [pluginManifest|]; [|discriminate].
  do 4 apply bind_inr in H as (? & ? & _ & H).
  apply bind_inr in H as (pd & tr1 & Hfold & H).
  injection H as <- <- <- <-.
  eapply (collect_provenance w _ _ [] _ pd _); eauto.
  - intros page Hpage. exact Hpage.
  - intros u r [].
  - intros u r [].
Qed.

(** The second [Promise.all] throws at the first URL that no page matches,
    having written nothing. *)
Lemma render_unmatched allPageIds needed prerenderData :
  forall acc tr,
  (exists u r, In (u, r) prerenderData
               /\ route w u allPageIds (pageContext r) = None) ->
  exists u r more,
    In (u, r) prerenderData
    /\ route w u allPageIds (pageContext r) = None
    /\ foldM (renderUrl w allPageIds needed) prerenderData acc tr
       = (inl (UsageError (noRouteMatchMsg (prerenderSourceFile r) u)), tr ++ more)
    /\ Forall (fun e => isWriteEvent e = false) more.
Proof.
  induction prerenderData as [|[u0 r0] pd IH]; intros acc tr (u & r & Hin & Hroute).
  - destruct Hin.
  - cbn [foldM]. unfold bind.
    destruct (quiet_renderUrl allPageIds needed acc (u0, r0) tr) as (more & Etr & Fm).
    destruct (route w u0 allPageIds (pageContext r0)) as [routeResult|] eqn:Hr0.
    + assert (Hrest : exists u r, In (u, r) pd
                                  /\ route w u allPageIds (pageContext r) = None).
      { destruct Hin as [Heq|Hin]; [|eauto].
        injection Heq as -> ->. congruence. }
      destruct (renderUrl w allPageIds needed acc (u0, r0) tr) as [[e|acc'] tr1] eqn:Hstep.
      * unfold renderUrl in Hstep. cbn [fst snd] in Hstep. rewrite Hr0 in Hstep.
        unfold bind, emit, ret in Hstep. discriminate.
      * cbn [snd] in Etr. subst tr1.
        destruct (IH acc' (tr ++ more) Hrest) as (u' & r' & more' & Hin' & Hr' & Hf & Fm').
        exists u', r', (more ++ more'). rewrite app_assoc.
        repeat split; auto. { right. exact Hin'. }
        apply Forall_app; split; assumption.
    + exists u0, r0, []. rewrite app_nil_r.
      repeat split; auto. { left. reflexivity. }
      unfold renderUrl. cbn [fst snd]. rewrite Hr0. reflexivity.
Qed.

(** C3: when the hooks have been run and one of the URLs they declared is
    matched by no page, the run throws a usage error whose message contains
    the source file of a hook that returned the unmatched URL it names, and
    no event of the run belongs to the writing of a file. *)
Theorem unmatched_url_aborts_before_writing (o : Options)
  needed allPageIds prerenderData tr1 u r :
  run (gatherUrls w o) = (inr (needed, allPageIds, prerenderData), tr1) ->
  In (u, r) prerenderData ->
  route w u allPageIds (pageContext r) = None ->
  exists u' r' tr,
    In (u', r') prerenderData
    /\ route w u' allPageIds (pageContext r') = None
    /\ declaredBy w allPageIds u' (prerenderSourceFile r')
    /\ run (prerender w o)
       = (inl (UsageError (noRouteMatchMsg (prerenderSourceFile r') u')), tr)
    /\ (exists before after,
          noRouteMatchMsg (prerenderSourceFile r') u'
          = before +:+ prerenderSourceFile r' +:+ after)
    /\ Forall (fun e => isWriteEvent e = false) tr.
Proof.
  unfold run. intros Hg Hin Hroute.
  destruct (gatherUrls_provenance o [] _ _ _ _ Hg) as [_ Hdecl].
  destruct (quiet_gatherUrls o []) as (more1 & E1 & F1).
  rewrite Hg in E1. cbn [snd app] in E1. subst tr1.
  destruct (render_unmatched allPageIds needed prerenderData ([], ∅) more1
              (ex_intro _ u (ex_intro _ r (conj Hin Hroute))))
    as (u' & r' & more & Hin' & Hr' & Hfold & Fm).
  exists u', r', (more1 ++ more). repeat split; auto.
  - rewrite prerender_stages. unfold bind at 1. rewrite Hg.
    unfold renderAndWrite. cbn [fst snd]. unfold bind at 1. rewrite Hfold. reflexivity.
  - eexists _, _. unfold noRouteMatchMsg. reflexivity.
  - apply Forall_app; split; assumption.
Qed.

(** The version that [getPluginManifest] returns is the running one,
    whatever the manifest file records. *)
Lemma getPluginManifest_version root pluginManifest path :
  getPluginManifest w root = inr (Some pluginManifest, path) ->
  manifestVersion pluginManifest = version w.
Proof.
  unfold getPluginManifest.
  destruct (negb (moduleExists w _)); [discriminate|].
  destruct (assert (hasProp _ "version")); [discriminate|]. cbn [bindR].
  destruct (assert (hasProp _ "base")); [discriminate|]. cbn [bindR].
  destruct (assert (hasProp _ "doesClientSideRouting")); [discriminate|]. cbn [bindR].
  destruct (js_get _ "base"); [discriminate|]. cbn [bindR].
  destruct (js_get _ "doesClientSideRouting"); [discriminate|]. cbn [bindR].
  destruct (asBool _); [|discriminate]. destruct (asString _); [|discriminate].
  intros H. injection H as <- _. reflexivity.
Qed.

(** X14: when the build manifest does not exist and [partial] is a boolean,
    the run throws the usage error that names the path of the manifest; the
    banner, and before it the warnings about deprecated options, are its
    only events. *)
Lemma missing_manifest_aborts (o : Options) :
  moduleExists w (pluginManifestPathOf (root o)) = false ->
  (exists b, orDefault (partial o) (JBool false) = JBool b) ->
  exists warnings,
    run (prerender w o)
    = (inl (UsageError (manifestMissingMsg (pluginManifestPathOf (root o)))),
       warnings ++ [EvLog (LogBanner (version w))])
    /\ Forall (fun e => exists msg, e = EvWarn msg) warnings.
Proof.
  intros Hmissing [b Hb]. unfold run, prerender, getPluginManifest.
  rewrite Hmissing, Hb. cbn [negb]. unfold assertArguments.
  set (c1 := match orDefault (clientRouter o) (JBool false) with
             | JBool false => true | _ => false end).
  set (c2 := match base o with JUndefined => true | _ => false end).
  exists ((if c1 then [] else [EvWarn clientRouterOptionMsg])
          ++ (if c2 then [] else [EvWarn baseOptionMsg])).
  destruct c1, c2; cbn; (split; [reflexivity|]); repeat constructor; eauto.
Qed.

(** *** Static routes and the 404 fallback *)

Lemma renderStaticPage_static partial allPageIds needed docs page tr :
  (forall u, Spec.staticUrl w allPageIds page = Some u -> startsWith u "/" = true) ->
  renderStaticPage w partial allPageIds needed docs page tr
  = (inr (docs ++ Spec.staticDocuments w allPageIds needed page),
     tr ++ Spec.staticEvents w partial allPageIds needed page).
Proof.
  unfold renderStaticPage, Spec.staticDocuments, Spec.staticEvents, Spec.staticUrl.
  intros Hslash.
  destruct (loadPageRoutes w !! page) as [[pageRoute|]|].
  - destruct (isStaticRoute w pageRoute).
    + unfold bind, liftR. rewrite (Hslash pageRoute eq_refl). reflexivity.
    + destruct partial; cbn; rewrite ?app_nil_r; reflexivity.
  - destruct partial; cbn; rewrite ?app_nil_r; reflexivity.
  - unfold bind, liftR. rewrite (Hslash _ eq_refl). reflexivity.
Qed.

(** X21: a page whose static URL, from the file system or from a static
    route string, does not start with a slash fails the assertion: the
    task throws the internal failure, renders nothing and leaves the events
    as they were. *)
Lemma renderStaticPage_unexpected_url partial allPageIds needed docs page u tr :
  Spec.staticUrl w allPageIds page = Some u ->
  startsWith u "/" = false ->
  renderStaticPage w partial allPageIds needed docs page tr = (inl InternalError, tr).
Proof.
  unfold renderStaticPage, Spec.staticUrl. intros Hu Hslash.
  destruct (loadPageRoutes w !! page) as [[pageRoute|]|]; try discriminate.
  - destruct (isStaticRoute w pageRoute); [|discriminate].
    injection Hu as ->. unfold bind, liftR. rewrite Hslash. reflexivity.
  - injection Hu as <-. unfold bind, liftR. rewrite Hslash. reflexivity.
Qed.

Lemma renderStaticPages_static partial allPageIds needed pages : forall docs tr,
  (forall page u, In page pages -> Spec.staticUrl w allPageIds page = Some u ->
                  startsWith u "/" = true) ->
  foldM (renderStaticPage w partial allPageIds needed) pages docs tr
  = (inr (docs ++ flat_map (Spec.staticDocuments w allPageIds needed) pages),
     tr ++ flat_map (Spec.staticEvents w partial allPageIds needed) pages).
Proof.
  induction pages as [|page pages IH]; intros docs tr Hslash; cbn [foldM flat_map].
  - rewrite !app_nil_r. reflexivity.
  - unfold bind. rewrite renderStaticPage_static.
    + rewrite IH, <- !app_assoc; [reflexivity|].
      intros page' u Hin. apply Hslash. right. exact Hin.
    + intros u. apply Hslash. left. reflexivity.
Qed.





End RunFacts.

(** ** Runs on the small site *)

Section DemoRuns.
Import Prerender.

(** C1: the hook returns [/movie/2] twice, first with [{ title }], then with
    [{ year }].  The record kept for the URL holds the second contribution
    only: [title] is gone from [prerenderData] and from the [pageContext]
    that [prerenderPage] receives. *)
Theorem later_entry_discards_earlier_pageContext :
  let w := Demo.site (Some (Demo.manifestOf "0.1.0")) Demo.titleThenYear in
  normalizePrerenderResult Demo.titleThenYear "/pages/movie.page.server.js"
  = inr [ {| entryUrl := "/movie/2";
             entryPageContext := Some [("title", JStr "X")] |};
          {| entryUrl := "/movie/2";
             entryPageContext := Some [("year", JNum 1999)] |} ]
  /\ fst (run (gatherUrls w (Demo.options JUndefined)))
     = inr (true, ["/pages/index"; "/pages/about"; "/pages/movie"],
            [("/movie/2",
              {| prerenderSourceFile := "/pages/movie.page.server.js";
                 pageContext := [("year", JNum 1999)];
                 noPrenderPageContext := false |})])
  /\ nth_error (snd (run (prerender w (Demo.options JUndefined)))) 5
     = Some (EvPrerenderPage "/pages/movie"
               [("year", JNum 1999);
                ("routeParams", JObj [("movieId", JStr "2")])]
               "/movie/2" true true).
Proof. vm_compute. repeat split; reflexivity. Qed.

(** C2: the hook returns [/movie/2] with an explicit [pageContext] and then
    as a bare string.  The record kept for the URL says that no
    [pageContext] was supplied, and [prerenderPage] is called with the flag
    [false]: the [addPageContext] hook is not skipped. *)
Theorem explicit_pageContext_forgotten_after_bare_url :
  let w := Demo.site (Some (Demo.manifestOf "0.1.0")) Demo.titleThenBare in
  normalizePrerenderResult Demo.titleThenBare "/pages/movie.page.server.js"
  = inr [ {| entryUrl := "/movie/2";
             entryPageContext := Some [("title", JStr "X")] |};
          {| entryUrl := "/movie/2"; entryPageContext := None |} ]
  /\ fst (run (gatherUrls w (Demo.options JUndefined)))
     = inr (true, ["/pages/index"; "/pages/about"; "/pages/movie"],
            [("/movie/2",
              {| prerenderSourceFile := "/pages/movie.page.server.js";
                 pageContext := [];
                 noPrenderPageContext := true |})])
  /\ nth_error (snd (run (prerender w (Demo.options JUndefined)))) 5
     = Some (EvPrerenderPage "/pages/movie"
               [("routeParams", JObj [("movieId", JStr "2")])]
               "/movie/2" false true).
Proof. vm_compute. repeat split; reflexivity. Qed.

(** C7: the manifest on disk records version [0.0.9] while version [0.1.0]
    runs.  [getPluginManifest] returns the running version, the comparison
    passes, and the run sets up the environment and goes on to the end. *)
Theorem stale_manifest_version_is_not_detected :
  let w := Demo.site (Some (Demo.manifestOf "0.0.9")) (JArr []) in
  version w = "0.1.0"
  /\ js_get (require w (pluginManifestPathOf "/app")) "version" = inr (JStr "0.0.9")
  /\ getPluginManifest w "/app"
     = inr (Some {| manifestVersion := "0.1.0";
                    manifestBase := "/";
                    doesClientSideRouting := true |},
            "/app/dist/client/vite-plugin-ssr.json")
  /\ fst (run (prerender w (Demo.options JUndefined))) = inr tt
  /\ nth_error (snd (run (prerender w (Demo.options JUndefined)))) 1
     = Some (EvSetSsrEnv "/app" "/").
Proof. vm_compute. repeat split; reflexivity. Qed.

(** A bare string is not tested by [normalizePrerenderResult]; without the
    leading slash it fails the assertion in the loop over the entries. *)
Lemma bare_url_without_slash :
  normalizePrerenderResult (JStr "movie/2") "/pages/movie.page.server.js"
  = inr [ {| entryUrl := "movie/2"; entryPageContext := None |} ]
  /\ addEntry "/pages/movie.page.server.js" []
              {| entryUrl := "movie/2"; entryPageContext := None |}
     = inl InternalError.
Proof. split; reflexivity. Qed.

Lemma unmatched_url_aborts_before_writing_witness :
  let w := Demo.site (Some (Demo.manifestOf "0.1.0")) Demo.bogus in
  exists u r tr,
    declaredBy w ["/pages/index"; "/pages/about"; "/pages/movie"] u
               (prerenderSourceFile r)
    /\ run (prerender w (Demo.options JUndefined))
       = (inl (UsageError (noRouteMatchMsg (prerenderSourceFile r) u)), tr)
    /\ Forall (fun e => isWriteEvent e = false) tr.
Proof.
  intros w.
  destruct (unmatched_url_aborts_before_writing w (Demo.options JUndefined)
              true ["/pages/index"; "/pages/about"; "/pages/movie"]
              [("/bogus",
                {| prerenderSourceFile := "/pages/movie.page.server.js";
                   pageContext := [];
                   noPrenderPageContext := true |})]
              [EvLog (LogBanner "0.1.0"); EvSetSsrEnv "/app" "/"; EvGetPageIds;
               EvLoadPageRoutes; EvHook "/pages/movie.page.server.js"]
              "/bogus"
              {| prerenderSourceFile := "/pages/movie.page.server.js";
                 pageContext := [];
                 noPrenderPageContext := true |})
    as (u & r & tr & _ & _ & Hd & Hrun & _ & Hw).
  - vm_compute. reflexivity.
  - left. reflexivity.
  - reflexivity.
  - exists u, r, tr. auto.
Defined.

End DemoRuns.

(** ** The write phase *)

Section ScheduleFacts.
Import Prerender.

Lemma interleave_idle {A} (pending : list (list A)) tr :
  Interleave pending tr -> Interleave ([] :: pending) tr.
Proof.
  induction 1 as [pending Hall | before x l after tr _ IH].
  - apply interleave_done. constructor; [reflexivity | exact Hall].
  - apply (interleave_step ([] :: before)). exact IH.
Qed.

(** Taking the pending sequences one after the other is a schedule. *)
Lemma interleave_sequential {A} (pending : list (list A)) :
  Interleave pending (concat pending).
Proof.
  induction pending as [|l pending IH]; cbn [concat].
  - apply interleave_done. constructor.
  - induction l as [|x l IHl]; cbn [app].
    + apply interleave_idle. exact IH.
    + apply (interleave_step [] x l pending). exact IHl.
Qed.

(** A schedule runs every pending item. *)
Lemma interleave_complete {A} (pending : list (list A)) tr :
  Interleave pending tr -> forall l x, In l pending -> In x l -> In x tr.
Proof.
  induction 1 as [pending Hall | before y l0 after tr _ IH]; intros l x Hl Hx.
  - rewrite Forall_forall in Hall. rewrite (Hall l) in Hx by (apply list_elem_of_In; exact Hl).
    destruct Hx.
  - apply in_app_or in Hl. destruct Hl as [Hl|[<-|Hl]].
    + right. apply (IH l x); [apply in_or_app; left; exact Hl | exact Hx].
    + destruct Hx as [<-|Hx]; [left; reflexivity | right].
      apply (IH l0 x); [apply in_or_app; right; left; reflexivity | exact Hx].
    + right. apply (IH l x); [apply in_or_app; right; right; exact Hl | exact Hx].
Qed.

Variable w : World.
Variable root : string.

Lemma lookup_tagged (i : nat) (t : list Event) p j e :
  map (pair i) t !! p = Some (j, e) -> j = i.
Proof.
  revert p. induction t as [|e0 t IH]; intros [|p]; cbn; try discriminate.
  - intros H. injection H as <- _. reflexivity.
  - apply IH.
Qed.

Lemma phase_indices i0 docs tr :
  WritePhase w root i0 docs tr ->
  forall p i e, tr !! p = Some (i, e) -> i0 <= i.
Proof.
  induction 1 as [i0 | i0 d ds t _ | i0 d ds t tr _ _ IH]; intros p i e Hp.
  - destruct p; discriminate.
  - apply lookup_tagged in Hp. lia.
  - apply lookup_app_Some in Hp. destruct Hp as [Hp|[_ Hp]].
    + apply lookup_tagged in Hp. lia.
    + apply IH in Hp. lia.
Qed.

Lemma phase_ordered i0 docs tr :
  WritePhase w root i0 docs tr ->
  forall p q i j e1 e2,
    tr !! p = Some (i, e1) -> tr !! q = Some (j, e2) -> i < j -> p < q.
Proof.
  induction 1 as [i0 | i0 d ds t _ | i0 d ds t tr _ Hrest IH];
    intros p q i j e1 e2 Hp Hq Hij.
  - destruct p; discriminate.
  - apply lookup_tagged in Hp, Hq. lia.
  - apply lookup_app_Some in Hp, Hq.
    destruct Hp as [Hp|[Hlen Hp]], Hq as [Hq|[Hlen' Hq]].
    + apply lookup_tagged in Hp, Hq. lia.
    + apply lookup_lt_Some in Hp. lia.
    + apply lookup_tagged in Hq. apply (phase_indices _ _ _ Hrest) in Hp. lia.
    + pose proof (IH _ _ _ _ _ _ Hp Hq Hij). lia.
Qed.

Lemma two_jobs_overlap d j1 j2 t :
  writeCalls w d root = [inr j1; inr j2] ->
  DocWrites w d root true t ->
  exists rest,
    t = EvIssue (Mkdir (jobDirectory j1)) :: EvIssue (Mkdir (jobDirectory j2)) :: rest
    /\ In (EvDone (WriteFile (jobFilePath j1) (jobContent j1))) rest
    /\ In (EvDone (WriteFile (jobFilePath j2) (jobContent j2))) rest.
Proof.
  intros Hcalls Hdoc. inversion Hdoc as [| |stretches _ _ Hsched]; subst.
  rewrite Hcalls in *. cbn [started map concat writeIssued app] in *.
  exists (concat stretches). split; [reflexivity|].
  split; apply in_concat.
  - exists [EvDone (WriteFile (jobFilePath j1) (jobContent j1));
            EvLog (LogWritten (jobFilePathRelative j1))].
    split; [|left; reflexivity].
    apply (interleave_complete _ _ Hsched (writeResumed j1));
      [left; reflexivity | right; left; reflexivity].
  - exists [EvDone (WriteFile (jobFilePath j2) (jobContent j2));
            EvLog (LogWritten (jobFilePathRelative j2))].
    split; [|left; reflexivity].
    apply (interleave_complete _ _ Hsched (writeResumed j2));
      [right; left; reflexivity | right; left; reflexivity].
Qed.

Lemma tagged_lookup (i : nat) (t : list Event) p e :
  t !! p = Some e -> map (pair i) t !! p = Some (i, e).
Proof.
  revert p. induction t as [|e0 t IH]; intros [|p]; cbn; try discriminate.
  - intros H. injection H as <-. reflexivity.
  - apply IH.
Qed.

(** A document whose writing returns has every file written. *)
Lemma written_document_complete d t job :
  DocWrites w d root true t ->
  In job (started (writeCalls w d root)) ->
  In (EvDone (WriteFile (jobFilePath job) (jobContent job))) t.
Proof.
  intros Hdoc Hjob. inversion Hdoc as [| |stretches _ _ Hsched]; subst.
  apply in_or_app. right. apply in_concat.
  exists [EvDone (WriteFile (jobFilePath job) (jobContent job));
          EvLog (LogWritten (jobFilePathRelative job))].
  split; [|left; reflexivity].
  apply (interleave_complete _ _ Hsched (writeResumed job)).
  - apply in_map. exact Hjob.
  - right. left. reflexivity.
Qed.

Lemma phase_completes_before i0 docs tr :
  WritePhase w root i0 docs tr ->
  forall q j e i d job,
    tr !! q = Some (j, e) -> i0 <= i -> i < j ->
    docs !! (i - i0) = Some d ->
    In job (started (writeCalls w d root)) ->
    exists p,
      p < q
      /\ tr !! p = Some (i, EvDone (WriteFile (jobFilePath job) (jobContent job))).
Proof.
  induction 1 as [i0 | i0 d0 ds t _ | i0 d0 ds t tr Hdoc Hrest IH];
    intros q j e i d job Hq Hlo Hij Hd Hjob.
  - destruct q; discriminate.
  - apply lookup_tagged in Hq. lia.
  - apply lookup_app_Some in Hq. destruct Hq as [Hq|[Hlen Hq]].
    + apply lookup_tagged in Hq. lia.
    + rewrite length_map in Hlen, Hq.
      destruct (decide (i = i0)) as [->|Hne].
      * replace (i0 - i0) with 0 in Hd by lia. cbn in Hd. injection Hd as <-.
        pose proof (written_document_complete _ _ _ Hdoc Hjob) as Hin.
        apply list_elem_of_In, list_elem_of_lookup in Hin. destruct Hin as [p Hp].
        exists p. split.
        -- apply lookup_lt_Some in Hp. lia.
        -- apply lookup_app_l_Some. apply tagged_lookup. exact Hp.
      * replace (i - i0) with (S (i - S i0)) in Hd by lia. cbn in Hd.
        destruct (IH _ _ _ i d job Hq ltac:(lia) Hij Hd Hjob) as (p & Hp & Hlook).
        exists (length t + p). split; [lia|].
        rewrite lookup_app_r; rewrite length_map; [|lia].
        replace (length t + p - length t) with p by lia. exact Hlook.
Qed.

(** C8: in every schedule of the write phase, each event of a document
    comes before each event of a later document, and when an event of a
    later document happens every file of the earlier document has been
    written: no operation of two documents is pending at once.  When a
    document has both files, its two jobs overlap: both [mkdir] are issued
    before any operation of the document is done; and such a schedule
    exists. *)
Theorem writes_are_serialized docs tr :
  WritePhase w root 0 docs tr ->
  (forall p q i j e1 e2,
     tr !! p = Some (i, e1) -> tr !! q = Some (j, e2) -> i < j -> p < q)
  /\ (forall q j e i d job,
        tr !! q = Some (j, e) -> i < j -> docs !! i = Some d ->
        In job (started (writeCalls w d root)) ->
        exists p,
          p < q
          /\ tr !! p
             = Some (i, EvDone (WriteFile (jobFilePath job) (jobContent job))))
  /\ (forall i d j1 j2,
        docs !! i = Some d ->
        startsWith (url d) "/" = true ->
        writeCalls w d root = [inr j1; inr j2] ->
        (exists t, DocWrites w d root true t)
        /\ forall t, DocWrites w d root true t ->
             exists rest,
               t = EvIssue (Mkdir (jobDirectory j1))
                   :: EvIssue (Mkdir (jobDirectory j2)) :: rest
               /\ In (EvDone (WriteFile (jobFilePath j1) (jobContent j1))) rest
               /\ In (EvDone (WriteFile (jobFilePath j2) (jobContent j2))) rest).
Proof.
  intros Hphase. split; [|split].
  - apply (phase_ordered _ _ _ Hphase).
  - intros q j e i d job Hq Hij Hd Hjob.
    apply (phase_completes_before _ _ _ Hphase q j e i d job); auto; [lia|].
    replace (i - 0) with i by lia. exact Hd.
  - intros i d j1 j2 _ Hslash Hcalls. split.
    + eexists. apply doc_written; [exact Hslash | rewrite Hcalls; reflexivity |].
      apply interleave_sequential.
    + intros t. apply two_jobs_overlap. exact Hcalls.
Qed.

(** The trace of [writeHtmlDocument] is one of the schedules of the
    document. *)
Lemma writeHtmlDocument_scheduled d tr :
  exists ok t,
    DocWrites w d root ok t
    /\ snd (writeHtmlDocument w d root tr) = tr ++ t
    /\ isOk (fst (writeHtmlDocument w d root tr)) = ok.
Proof.
  unfold writeHtmlDocument, bind, liftR, emits.
  destruct (startsWith (url d) "/") eqn:Hslash; cbn [assert].
  - destruct (firstRejection (writeCalls w d root)) as [e|] eqn:Hrej.
    + exists false, (concat (map writeIssued (started (writeCalls w d root)))).
      split; [eapply doc_rejected; eauto | split; reflexivity].
    + exists true, (concat (map writeIssued (started (writeCalls w d root)))
                    ++ concat (concat (map writeResumed
                                                  (started (writeCalls w d root))))).
      split; [apply doc_written; auto using interleave_sequential|].
      cbn [fst snd]. rewrite app_assoc. split; reflexivity.
  - exists false, []. split; [apply doc_bad_url; exact Hslash|].
    rewrite app_nil_r. split; reflexivity.
Qed.

Lemma map_snd_tagged (i : nat) (t : list Event) : map snd (map (pair i) t) = t.
Proof. induction t as [|e t IH]; cbn; [reflexivity | f_equal; exact IH]. Qed.

(** X22: the events that the write loop appends, with the jobs of each
    document resumed one after the other, are the events of one of the
    schedules of the write phase. *)
Lemma write_loop_scheduled docs : forall i tr,
  exists tagged,
    WritePhase w root i docs tagged
    /\ snd (foldM (fun _ d => writeHtmlDocument w d root) docs tt tr)
       = tr ++ map snd tagged.
Proof.
  induction docs as [|d ds IH]; intros i tr; cbn [foldM].
  - exists []. rewrite app_nil_r. split; [constructor | reflexivity].
  - destruct (writeHtmlDocument_scheduled d tr) as (ok & t & Hdoc & Htr & Hok).
    unfold bind.
    destruct (writeHtmlDocument w d root tr) as [[e|[]] tr1]; cbn [fst snd isOk] in *;
      subst ok tr1.
    + exists (map (pair i) t). rewrite map_snd_tagged.
      split; [apply phase_abort; exact Hdoc | reflexivity].
    + destruct (IH (S i) (tr ++ t)) as (tagged & Hphase & Hrest).
      exists (map (pair i) t ++ tagged).
      split; [apply phase_next; assumption|].
      rewrite Hrest, map_app, map_snd_tagged, app_assoc. reflexivity.
Qed.

End ScheduleFacts.

Section DemoSchedules.
Import Prerender.

Lemma sidecarFirst_scheduled :
  DocWrites (Demo.site None JNull) Demo.movieDocument "/app" true Demo.sidecarFirst.
Proof.
  apply (doc_written (Demo.site None JNull) Demo.movieDocument "/app"
           [ [EvDone (Mkdir "/app/dist/client/movie/2");
              EvIssue (WriteFile "/app/dist/client/movie/2/index.pageContext.json" "{}")];
             [EvDone (Mkdir "/app/dist/client/movie/2");
              EvIssue (WriteFile "/app/dist/client/movie/2/index.html"
                                 "<html>/movie/2</html>")];
             [EvDone (WriteFile "/app/dist/client/movie/2/index.pageContext.json" "{}");
              EvLog (LogWritten "movie/2/index.pageContext.json")];
             [EvDone (WriteFile "/app/dist/client/movie/2/index.html"
                                "<html>/movie/2</html>");
              EvLog (LogWritten "movie/2/index.html")] ]);
    [reflexivity | reflexivity |].
  cbv.
  apply (interleave_step [_] _ _ []); cbn [app].
  apply (interleave_step [] _ _ [_]); cbn [app].
  apply (interleave_step [_] _ _ []); cbn [app].
  apply (interleave_step [] _ _ [_]); cbn [app].
  apply interleave_done. repeat constructor.
Qed.

Lemma notFoundWritten_scheduled :
  DocWrites (Demo.site None JNull) Demo.notFoundDocument "/app" true
            Demo.notFoundWritten.
Proof.
  apply (doc_written (Demo.site None JNull) Demo.notFoundDocument "/app"
           [ [EvDone (Mkdir "/app/dist/client");
              EvIssue (WriteFile "/app/dist/client/404.html" "<html>404</html>")];
             [EvDone (WriteFile "/app/dist/client/404.html" "<html>404</html>");
              EvLog (LogWritten "404.html")] ]);
    [reflexivity | reflexivity |].
  cbv.
  apply (interleave_step [] _ _ []); cbn [app].
  apply (interleave_step [] _ _ []); cbn [app].
  apply interleave_done. repeat constructor.
Qed.

Lemma writes_are_serialized_witness :
  let tr := map (pair 0) Demo.sidecarFirst ++ map (pair 1) Demo.notFoundWritten in
  WritePhase (Demo.site None JNull) "/app" 0
             [Demo.movieDocument; Demo.notFoundDocument] tr
  /\ forall p q i j e1 e2,
       tr !! p = Some (i, e1) -> tr !! q = Some (j, e2) -> i < j -> p < q.
Proof.
  intros tr.
  assert (H : WritePhase (Demo.site None JNull) "/app" 0
                         [Demo.movieDocument; Demo.notFoundDocument] tr).
  { apply phase_next; [exact sidecarFirst_scheduled|].
    rewrite <- (app_nil_r (map (pair 1) Demo.notFoundWritten)).
    apply phase_next; [exact notFoundWritten_scheduled | apply phase_end]. }
  split; [exact H|].
  exact (proj1 (writes_are_serialized (Demo.site None JNull) "/app"
                  [Demo.movieDocument; Demo.notFoundDocument] tr H)).
Defined.



End DemoSchedules.

(** ** More on [normalizePrerenderResult] *)

Section NormalizeEntries.
Import Prerender.
Variable f : string.

Lemma bindR_inr {A B} (m : Result A) (k : A -> Result B) y :
  bindR m k = inr y -> exists x, m = inr x /\ k x = inr y.
Proof. destruct m as [e|x]; [discriminate | eauto]. Qed.

Lemma bindR_inl {A B} (m : Result A) (k : A -> Result B) e :
  bindR m k = inl e -> m = inl e \/ exists x, m = inr x /\ k x = inl e.
Proof. destruct m as [e'|x]; cbn; [left; congruence | right; eauto]. Qed.

Lemma assertUsage_inr c msg u : assertUsage c msg = inr u -> c = true.
Proof. destruct c; [reflexivity | discriminate]. Qed.

Lemma assertUsage_inl c msg e : assertUsage c msg = inl e -> c = false /\ e = UsageError msg.
Proof. destruct c; [discriminate|]. intros H. injection H as <-. auto. Qed.

Lemma normalize_entryFor el e : normalize f el = inr e -> Spec.entryFor el e.
Proof.
  destruct el; try discriminate.
  - intros H. injection H as <-. reflexivity.
  - unfold normalize. intros H.
    apply bindR_inr in H as ([] & _ & H).
    apply bindR_inr in H as ([] & Hurl%assertUsage_inr & H).
    cbn [hasProp] in Hurl. apply assoc_mem_true in Hurl as [urlValue Hurl].
    cbn [js_get bindR] in H. rewrite Hurl in H. cbn [default from_option id] in H.
    destruct urlValue; try discriminate.
    apply bindR_inr in H as ([] & _ & H).
    apply bindR_inr in H as ([] & _ & H).
    cbn [hasProp Spec.entryFor] in *. unfold assoc_mem in H.
    destruct (assoc_lookup "pageContext" props) as [pc|] eqn:Hpc; cbn [negb] in H.
    + cbn [js_get bindR] in H. rewrite Hpc in H. cbn [default from_option id] in H.
      apply bindR_inr in H as ([] & Hok%assertUsage_inr & H). injection H as <-.
      cbn [entryUrl entryPageContext]. split; [exact Hurl|].
      destruct pc; try reflexivity; cbn in Hok;
        rewrite andb_false_r in Hok; discriminate.
    + change (spread props [("pageContext", JNull)])
        with (assoc_set "pageContext" JNull props) in H.
      cbn [js_get bindR] in H. rewrite assoc_lookup_set_eq in H.
      cbn [default from_option id] in H.
      apply bindR_inr in H as ([] & _ & H). injection H as <-.
      split; [exact Hurl | reflexivity].
Qed.

Lemma mapR_Forall2 elems : forall entries,
  mapR (normalize f) elems = inr entries -> Forall2 Spec.entryFor elems entries.
Proof.
  induction elems as [|el elems IH]; intros entries H; cbn [mapR] in H.
  - injection H as <-. constructor.
  - apply bindR_inr in H as (e & He & H).
    apply bindR_inr in H as (es & Hes & H). injection H as <-.
    constructor; [apply normalize_entryFor; exact He | apply IH; exact Hes].
Qed.

(** X1: a result that normalizes gives one entry per element, in the order of
    the elements (a value that is not an array counts as its only element);
    each entry has the URL of its element and the [pageContext] object of
    its element, or [null] when the element is a bare string or has a
    [pageContext] that is [null] or left out. *)
Theorem normalized_entries_follow_elements (v : JsValue) (entries : list Entry) :
  normalizePrerenderResult v f = inr entries ->
  Forall2 Spec.entryFor (match v with JArr elems => elems | _ => [v] end) entries.
Proof.
  unfold normalizePrerenderResult. intros H.
  destruct v; try (apply mapR_Forall2; exact H);
    apply bindR_inr in H as (e & He & H); injection H as <-;
    (constructor; [apply normalize_entryFor; exact He | constructor]).
Qed.

End NormalizeEntries.

Section NormalizeErrors.
Import Prerender.
Variable f : string.

Lemma append_assoc (a b c : string) : (a +:+ b) +:+ c = a +:+ (b +:+ c).
Proof.
  induction a as [|ch a IH]; [reflexivity|].
  change (String ch ((a +:+ b) +:+ c) = String ch (a +:+ (b +:+ c))).
  rewrite IH. reflexivity.
Qed.

Lemma mentions_here (a part b : string) : mentions (a +:+ part +:+ b) part.
Proof. exists a, b. reflexivity. Qed.

Lemma mentions_append_r (msg part more : string) :
  mentions msg part -> mentions (msg +:+ more) part.
Proof.
  intros (a & b & ->). exists a, (b +:+ more).
  rewrite !append_assoc. reflexivity.
Qed.

Lemma mentions_errMsg1 : mentions (errMsg1 f) f.
Proof. apply mentions_here. Qed.

Lemma normalize_error el e :
  normalize f el = inl e -> exists msg, e = UsageError msg /\ mentions msg f.
Proof.
  assert (Hinvalid : mentions (invalidValueMsg f) f)
    by (apply mentions_append_r, mentions_errMsg1).
  destruct el; try discriminate;
    try (intros H; injection H as <-; eexists; split; [reflexivity | exact Hinvalid]).
  unfold normalize. intros H.
  apply bindR_inl in H as [H|([] & _ & H)]; [discriminate|].
  apply bindR_inl in H as [[_ ->]%assertUsage_inl|([] & Hurl%assertUsage_inr & H)].
  { eexists. split; [reflexivity|]. apply mentions_append_r, mentions_errMsg1. }
  cbn [hasProp] in Hurl. apply assoc_mem_true in Hurl as [urlValue Hurl].
  cbn [js_get bindR] in H. rewrite Hurl in H. cbn [default from_option id] in H.
  assert (Htype : forall t, mentions (urlTypeMsg f t) f)
    by (intros t; apply mentions_append_r, mentions_errMsg1).
  destruct urlValue;
    try (injection H as <-; eexists; split; [reflexivity | apply Htype]).
  apply bindR_inl in H as [[_ ->]%assertUsage_inl|([] & _ & H)].
  { eexists. split; [reflexivity|]. apply mentions_append_r, mentions_errMsg1. }
  apply bindR_inl in H as [H|([] & _ & H)].
  { clear Hurl. induction (match JObj props with JObj o => obj_keys o | _ => [] end)
      as [|key keys IH]; cbn [foldR] in H; [discriminate|].
    apply bindR_inl in H as [[_ ->]%assertUsage_inl|([] & _ & H)]; [|auto].
    eexists. split; [reflexivity|]. apply mentions_append_r, mentions_errMsg1. }
  apply bindR_inl in H as [H|(pc & _ & H)].
  { destruct (negb (hasProp (JObj props) "pageContext")); discriminate. }
  apply bindR_inl in H as [[_ ->]%assertUsage_inl|(? & _ & H)]; [|discriminate].
  eexists. split; [reflexivity|]. apply mentions_here.
Qed.

Lemma normalizePrerenderResult_throws_usage (v : JsValue) (e : Err) :
  normalizePrerenderResult v f = inl e -> exists msg, e = UsageError msg.
Proof.
  assert (H : decides (normalizePrerenderResult v f) (Spec.acceptedValue v)).
  { unfold normalizePrerenderResult, Spec.acceptedValue.
    destruct v; try apply mapR_decides;
      match goal with
      | |- decides (bindR (normalize f ?x) _) ?b =>
          rewrite <- (andb_true_r b);
          apply decides_bind;
          [apply normalize_element | intros entry _; apply decides_ok]
      end. }
  destruct H as [H1 H2]. intros He. rewrite He in H1, H2. cbn in H1.
  specialize (H2 (eq_sym H1)). destruct e; try discriminate. eauto.
Qed.

(** X2: every error of [normalizePrerenderResult] is a usage error whose
    message contains the source file of the hook. *)
Theorem normalization_error_names_file (v : JsValue) (e : Err) :
  normalizePrerenderResult v f = inl e ->
  exists msg, e = UsageError msg /\ mentions msg f.
Proof.
  unfold normalizePrerenderResult. intros H.
  destruct v;
    try (apply bindR_inl in H as [H|(? & _ & H)];
         [apply (normalize_error _ _ H) | discriminate]).
  induction elems as [|el elems IH]; cbn [mapR] in H; [discriminate|].
  apply bindR_inl in H as [H|(? & _ & H)]; [apply (normalize_error _ _ H)|].
  apply bindR_inl in H as [H|(? & _ & H)]; [auto | discriminate].
Qed.

(** X3: an object with a string [url] that starts with a slash and with a key
    other than [url] and [pageContext] is rejected with the message that
    names the first such key in the order of [Object.keys], whatever its
    [pageContext] is. *)
Theorem unknown_key_is_reported (o : Obj) (u key : string) :
  assoc_lookup "url" o = Some (JStr u) ->
  startsWith u "/" = true ->
  Spec.firstUnknownKey o = Some key ->
  normalize f (JObj o) = inl (UsageError (unexpectedKeyMsg f key)).
Proof.
  intros Hurl Hslash Hkey. unfold normalize.
  cbn [isPlainObject assertUsage bindR hasProp js_get]. unfold assoc_mem at 1.
  rewrite Hurl. cbn [assertUsage bindR default from_option id]. rewrite Hslash.
  cbn [assertUsage bindR].
  unfold Spec.firstUnknownKey in Hkey.
  assert (Hfold : foldR (fun (_ : unit) key0 =>
                    assertUsage (String.eqb key0 "url" || String.eqb key0 "pageContext")
                                (unexpectedKeyMsg f key0)) (obj_keys o) tt
                  = inl (UsageError (unexpectedKeyMsg f key))).
  { induction (obj_keys o) as [|k keys IH]; cbn [List.find foldR] in *; [discriminate|].
    destruct (String.eqb k "url" || String.eqb k "pageContext");
      cbn [negb assertUsage bindR] in *; [auto | congruence]. }
  rewrite Hfold. reflexivity.
Qed.

(** X4: in an array, the first element that does not normalize decides the
    error; the elements after it are not looked at. *)
Theorem first_invalid_element_decides (good rest : list JsValue) (bad : JsValue) e :
  Forall (fun el => isOk (normalize f el) = true) good ->
  normalize f bad = inl e ->
  normalizePrerenderResult (JArr (good ++ bad :: rest)) f = inl e.
Proof.
  intros Hgood Hbad. cbn [normalizePrerenderResult].
  induction Hgood as [|el good Hel _ IH]; cbn [app mapR].
  - rewrite Hbad. reflexivity.
  - destruct (normalize f el) as [?|entry]; [discriminate|].
    cbn [bindR]. rewrite IH. reflexivity.
Qed.

End NormalizeErrors.

(** ** More on the URLs of the hooks *)

Section CollectKeys.
Import Prerender.
Variable w : World.

Lemma assoc_set_keys {V} k (v : V) o :
  map fst (assoc_set k v o)
  = if assoc_mem k o then map fst o else map fst o ++ [k].
Proof.
  unfold assoc_mem. induction o as [|[k' v'] o IH]; cbn; [reflexivity|].
  destruct (String.eqb_spec k k') as [->|Hne]; cbn; [reflexivity|].
  rewrite IH. destruct (assoc_lookup k o); reflexivity.
Qed.

Lemma assoc_mem_keys {V} k (o : list (string * V)) :
  assoc_mem k o = true <-> In k (map fst o).
Proof.
  unfold assoc_mem. induction o as [|[k' v'] o IH]; cbn.
  - split; [discriminate | intros []].
  - destruct (String.eqb_spec k k') as [->|Hne].
    + split; auto.
    + split; [intros H; right; apply IH; exact H|].
      intros [H|H]; [congruence | apply IH; exact H].
Qed.

Lemma assoc_set_NoDup {V} k (v : V) o :
  NoDup (map fst o) -> NoDup (map fst (assoc_set k v o)).
Proof.
  intros Hnd. rewrite assoc_set_keys.
  destruct (assoc_mem k o) eqn:Hmem; [exact Hnd|].
  apply NoDup_app. repeat split; [exact Hnd | | apply NoDup_singleton].
  intros x Hx [->|[]]%list_elem_of_In. apply list_elem_of_In, assoc_mem_keys in Hx.
  congruence.
Qed.

Lemma assoc_set_keys_In {V} k (v : V) o u :
  In u (map fst (assoc_set k v o)) <-> In u (map fst o) \/ u = k.
Proof.
  rewrite assoc_set_keys. destruct (assoc_mem k o) eqn:Hmem.
  - split; [auto|]. intros [H| ->]; [exact H | apply assoc_mem_keys; exact Hmem].
  - split.
    + intros [H|[<-|[]]]%in_app_or; auto.
    + intros [H| ->]; apply in_or_app; [left; exact H | right; left; reflexivity].
Qed.

Lemma addEntry_keys f prerenderData e prerenderData' :
  slashKeys prerenderData ->
  NoDup (map fst prerenderData) ->
  addEntry f prerenderData e = inr prerenderData' ->
  NoDup (map fst prerenderData')
  /\ forall u, In u (map fst prerenderData')
               <-> In u (map fst prerenderData) \/ u = entryUrl e.
Proof.
  intros Hk Hnd Hadd.
  destruct (startsWith (entryUrl e) "/") eqn:Hslash.
  - rewrite addEntry_overwrites in Hadd by auto using slashKeys_no_url.
    injection Hadd as <-.
    split; [apply assoc_set_NoDup; exact Hnd | intros u; apply assoc_set_keys_In].
  - unfold addEntry in Hadd. rewrite Hslash in Hadd. discriminate.
Qed.

Lemma foldR_addEntry_NoDup f entries : forall prerenderData prerenderData',
  slashKeys prerenderData ->
  NoDup (map fst prerenderData) ->
  foldR (addEntry f) entries prerenderData = inr prerenderData' ->
  NoDup (map fst prerenderData').
Proof.
  induction entries as [|e entries IH]; intros pd pd' Hk Hnd Hfold; cbn [foldR] in Hfold.
  - injection Hfold as <-. exact Hnd.
  - apply bindR_inr in Hfold as (pd1 & Hadd & Hfold).
    destruct (addEntry_keys _ _ _ _ Hk Hnd Hadd) as [Hnd1 _].
    destruct (addEntry_provenance _ _ _ _ Hk Hadd) as [Hk1 _].
    exact (IH pd1 pd' Hk1 Hnd1 Hfold).
Qed.

(** X5: after the entries of a hook, [prerenderData] has one record for each
    URL that it had or that the entries name, and no URL twice. *)
Theorem one_record_per_url f entries : forall prerenderData prerenderData',
  slashKeys prerenderData ->
  NoDup (map fst prerenderData) ->
  foldR (addEntry f) entries prerenderData = inr prerenderData' ->
  NoDup (map fst prerenderData')
  /\ forall u, In u (map fst prerenderData')
               <-> In u (map fst prerenderData) \/ In u (map entryUrl entries).
Proof.
  induction entries as [|e entries IH]; intros pd pd' Hk Hnd Hfold; cbn [foldR] in Hfold.
  - injection Hfold as <-. split; [exact Hnd|]. intros u. cbn. tauto.
  - apply bindR_inr in Hfold as (pd1 & Hadd & Hfold).
    destruct (addEntry_keys _ _ _ _ Hk Hnd Hadd) as [Hnd1 Hin1].
    destruct (addEntry_provenance _ _ _ _ Hk Hadd) as [Hk1 _].
    destruct (IH pd1 pd' Hk1 Hnd1 Hfold) as [Hnd' Hin'].
    split; [exact Hnd'|]. intros u. cbn [map In].
    specialize (Hin' u). specialize (Hin1 u).
    split.
    + intros [[H| ->]%Hin1|H]%Hin'; auto.
    + intros [H|[<-|H]]; apply Hin'; [left; apply Hin1; auto | left; apply Hin1; auto | auto].
Qed.

Lemma collectPage_keys prerenderData page tr prerenderData' tr' :
  slashKeys prerenderData ->
  NoDup (map fst prerenderData) ->
  collectPage w prerenderData page tr = (inr prerenderData', tr') ->
  NoDup (map fst prerenderData').
Proof.
  intros Hk Hnd Hc. unfold collectPage in Hc.
  destruct (getPageFunctions w page) as [fn|]; [|injection Hc as <- _; exact Hnd].
  apply bind_inr in Hc as ([] & ? & _ & Hc).
  apply bind_inr in Hc as (entries & ? & _ & Hc).
  unfold liftR in Hc. injection Hc as Hfold _.
  apply (foldR_addEntry_NoDup _ _ _ _ Hk Hnd Hfold).
Qed.

Lemma collect_keys pageIds : forall prerenderData tr prerenderData' tr',
  slashKeys prerenderData ->
  NoDup (map fst prerenderData) ->
  foldM (collectPage w) pageIds prerenderData tr = (inr prerenderData', tr') ->
  NoDup (map fst prerenderData').
Proof.
  induction pageIds as [|page pageIds IH]; intros pd tr pd' tr' Hk Hnd Hfold;
    cbn [foldM] in Hfold.
  - injection Hfold as <- _. exact Hnd.
  - apply bind_inr in Hfold as (pd1 & tr1 & Hc & Hfold).
    destruct (collectPage_provenance w _ _ _ _ _ Hk Hc) as [Hk1 _].
    apply (IH pd1 tr1 pd' tr'); auto.
    apply (collectPage_keys _ _ _ _ _ Hk Hnd Hc).
Qed.

(** X6: what the first half of [prerender] hands over when it does not
    throw: the pages that are not error pages, in the order of the registry;
    and a [prerenderData] in which no URL occurs twice, every URL starts
    with a slash, and every record carries the file of a hook, of one of
    these pages, that returned the URL. *)
Theorem gathered_urls_are_wellformed (o : Options) tr needed allPageIds
  prerenderData tr' :
  gatherUrls w o tr = (inr (needed, allPageIds, prerenderData), tr') ->
  allPageIds = filter (fun page => isErrorPage w page = false) (getPageIds w)
  /\ NoDup (map fst prerenderData)
  /\ slashKeys prerenderData
  /\ forall u r, In (u, r) prerenderData ->
       declaredBy w allPageIds u (prerenderSourceFile r).
Proof.
  intros H. destruct (gatherUrls_provenance w o _ _ _ _ _ H) as [Hk Hd].
  unfold gatherUrls in H.
  do 3 apply bind_inr in H as (? & ? & _ & H).
  destruct (_.1) as [pluginManifest|]; [|discriminate].
  do 4 apply bind_inr in H as (? & ? & _ & H).
  apply bind_inr in H as (pd & tr1 & Hfold & H).
  injection H as <- <- <- <-.
  repeat split; auto.
  eapply (collect_keys _ [] _ pd _); eauto; [intros u r [] | constructor].
Qed.

End CollectKeys.

(** ** The errors of a run *)

Section EntriesLoop.
Import Prerender.

(** X8: the loop over the entries of one hook, started on a dictionary whose
    keys all start with a slash, fails exactly when the URL of one of the
    entries does not start with a slash, and then on the internal assertion;
    otherwise it returns a dictionary.  So the assignment to
    [prerenderData[url]] is never made on [undefined]: the loop never ends
    in a [TypeError]. *)
Theorem entries_fail_only_on_missing_slash f entries : forall prerenderData,
  slashKeys prerenderData ->
  ((exists e, In e entries /\ startsWith (entryUrl e) "/" = false)
   <-> foldR (addEntry f) entries prerenderData = inl InternalError)
  /\ (List.Forall (fun e => startsWith (entryUrl e) "/" = true) entries
      <-> exists prerenderData',
            foldR (addEntry f) entries prerenderData = inr prerenderData').
Proof.
  induction entries as [|e entries IH]; intros pd Hk; cbn [foldR].
  - split; split.
    + intros (e & [] & _).
    + discriminate.
    + eauto.
    + constructor.
  - destruct (startsWith (entryUrl e) "/") eqn:Hslash.
    + pose proof (addEntry_overwrites f pd e (slashKeys_no_url pd Hk) Hslash) as Hadd.
      destruct (addEntry_provenance _ _ _ _ Hk Hadd) as [Hk1 _].
      rewrite Hadd. cbn [bindR]. destruct (IH _ Hk1) as [IH1 IH2]. split; split.
      * intros (e' & [<- | Hin] & He'); [congruence|].
        apply IH1. eauto.
      * intros (e' & Hin & He')%IH1. exists e'. split; [right|]; assumption.
      * intros Hall. apply IH2. inversion Hall; assumption.
      * intros Hok%IH2. constructor; assumption.
    + assert (Hadd : addEntry f pd e = inl InternalError).
      { unfold addEntry. rewrite Hslash. reflexivity. }
      rewrite Hadd. cbn [bindR]. split; split.
      * reflexivity.
      * intros _. exists e. split; [left; reflexivity | exact Hslash].
      * intros Hall. inversion Hall; congruence.
      * intros [pd' Hpd']. discriminate.
Qed.

End EntriesLoop.

(** ** Runs do not look at the events before them *)

Section UniformFacts.
Import Prerender.

Lemma uniform_ret {A} (x : A) : uniform (ret x).
Proof. intros tr. cbn. rewrite app_nil_r. reflexivity. Qed.

Lemma uniform_throw {A} (e : Err) : uniform (throw e : M A).
Proof. intros tr. cbn. rewrite app_nil_r. reflexivity. Qed.

Lemma uniform_liftR {A} (r : Result A) : uniform (liftR r).
Proof. intros tr. cbn. rewrite app_nil_r. reflexivity. Qed.

Lemma uniform_emit (e : Event) : uniform (emit e).
Proof. intros tr. reflexivity. Qed.

Lemma uniform_emits (es : list Event) : uniform (emits es).
Proof. intros tr. reflexivity. Qed.

Lemma uniform_bind {A B} (m : M A) (k : A -> M B) :
  uniform m -> (forall x, uniform (k x)) -> uniform (bind m k).
Proof.
  intros Hm Hk tr. unfold bind. rewrite (Hm tr).
  destruct (m []) as [[e|x] s]; cbn [fst snd]; [reflexivity|].
  rewrite (Hk x (tr ++ s)), (Hk x s). cbn [fst snd]. rewrite app_assoc. reflexivity.
Qed.

Lemma uniform_foldM {A B} (step : A -> B -> M A) (l : list B) :
  (forall a x, uniform (step a x)) -> forall a, uniform (foldM step l a).
Proof.
  intros Hstep. induction l as [|x l IH]; intros a; cbn [foldM].
  - apply uniform_ret.
  - apply uniform_bind; auto.
Qed.

Lemma uniform_assertWarning c msg : uniform (assertWarning c msg).
Proof. destruct c; [apply uniform_ret | apply uniform_emit]. Qed.

Lemma uniform_extends {A} (m : M A) tr : uniform m -> exists more, snd (m tr) = tr ++ more.
Proof. intros H. rewrite (H tr). eauto. Qed.

Variable w : World.

Lemma uniform_writeHtmlDocument d root : uniform (writeHtmlDocument w d root).
Proof.
  unfold writeHtmlDocument.
  apply uniform_bind; [apply uniform_liftR | intros _].
  apply uniform_bind; [apply uniform_emits | intros _].
  destruct (firstRejection _); [apply uniform_throw | apply uniform_emits].
Qed.

Lemma uniform_fallbackAndWrite root docs : uniform (fallbackAndWrite w root docs).
Proof.
  unfold fallbackAndWrite, renderFallback404.
  apply uniform_bind.
  { destruct (negb _); [|apply uniform_ret].
    apply uniform_bind; [apply uniform_emit | intros _].
    destruct (renderStatic404Page w); apply uniform_ret. }
  intros docs'. apply uniform_bind; [apply uniform_emit | intros _].
  apply uniform_foldM. intros. apply uniform_writeHtmlDocument.
Qed.

Lemma uniform_renderUrl allPageIds needed acc kv :
  uniform (renderUrl w allPageIds needed acc kv).
Proof.
  unfold renderUrl. destruct (route w _ _ _); [|apply uniform_throw].
  apply uniform_bind; [apply uniform_emit | intros _; apply uniform_ret].
Qed.

Lemma uniform_renderStaticPage partial allPageIds needed docs page :
  uniform (renderStaticPage w partial allPageIds needed docs page).
Proof.
  unfold renderStaticPage, renderAt.
  repeat first
    [ apply uniform_ret | apply uniform_emit | apply uniform_assertWarning
    | apply uniform_liftR
    | apply uniform_bind; [|intros ?]
    | match goal with
      | |- uniform (match ?x with _ => _ end) => destruct x
      | |- uniform (if ?x then _ else _) => destruct x
      end ].
Qed.

Lemma uniform_collectPage prerenderData page : uniform (collectPage w prerenderData page).
Proof.
  unfold collectPage. destruct (getPageFunctions w page); [|apply uniform_ret].
  apply uniform_bind; [apply uniform_emit | intros _].
  apply uniform_bind; [apply uniform_liftR | intros entries; apply uniform_liftR].
Qed.

Lemma uniform_prerender (o : Options) : uniform (prerender w o).
Proof.
  unfold prerender, assertArguments.
  apply uniform_bind; [|intros _].
  { apply uniform_bind; [apply uniform_liftR | intros _].
    apply uniform_bind; [|intros _]; apply uniform_assertWarning. }
  apply uniform_bind; [apply uniform_emit | intros _].
  apply uniform_bind; [apply uniform_liftR|].
  intros [[pluginManifest|] path]; cbn [fst snd]; [|apply uniform_throw].
  apply uniform_bind; [apply uniform_liftR | intros _].
  do 3 (apply uniform_bind; [apply uniform_emit | intros _]).
  apply uniform_bind; [apply uniform_foldM; intros; apply uniform_collectPage|].
  intros prerenderData.
  apply uniform_bind; [apply uniform_foldM; intros; apply uniform_renderUrl|].
  intros rendered.
  apply uniform_bind; [apply uniform_foldM; intros; apply uniform_renderStaticPage|].
  intros docs. apply (uniform_fallbackAndWrite (root o) docs).
Qed.

End UniformFacts.

(** ** Rendering the URLs of the hooks *)

Section RenderStage.
Import Prerender.
Variable w : World.

Lemma spread_lookup {V} (a b : list (string * V)) k :
  NoDup (map fst b) ->
  assoc_lookup k (spread a b)
  = match assoc_lookup k b with
    | Some v => Some v
    | None => assoc_lookup k a
    end.
Proof.
  unfold spread. revert a. induction b as [|[k1 v1] b IH]; intros a Hnd; cbn.
  - reflexivity.
  - apply NoDup_cons in Hnd as [Hnotin Hnd]. rewrite IH by exact Hnd.
    destruct (String.eqb_spec k k1) as [->|Hne].
    + assert (assoc_lookup k1 b = None) as ->.
      { apply assoc_mem_false. destruct (assoc_mem k1 b) eqn:E; [|reflexivity].
        apply assoc_mem_keys, list_elem_of_In in E. contradiction. }
      apply assoc_lookup_set_eq.
    + rewrite assoc_lookup_set_ne by congruence. reflexivity.
Qed.

(** X9: the [pageContext] that [prerenderPage] receives for a URL of a hook
    has, for every key of the route's [pageContextAddendum], the value of
    the addendum, and for every other key the value recorded from the
    hooks; the flag that skips [addPageContext] is the negation of the
    record's [noPrenderPageContext]. *)
Theorem route_addendum_overrides_hook_context allPageIds needed acc u r routeResult tr :
  route w u allPageIds (pageContext r) = Some routeResult ->
  NoDup (map fst (pageContextAddendum routeResult)) ->
  exists pageContext',
    snd (renderUrl w allPageIds needed acc (u, r) tr)
    = tr ++ [EvPrerenderPage (pageId routeResult) pageContext' u
                             (negb (noPrenderPageContext r)) needed]
    /\ forall k,
         assoc_lookup k pageContext'
         = match assoc_lookup k (pageContextAddendum routeResult) with
           | Some v => Some v
           | None => assoc_lookup k (pageContext r)
           end.
Proof.
  intros Hroute Hnd. unfold renderUrl. cbn [fst snd]. rewrite Hroute.
  eexists. split; [reflexivity|]. intros k. apply spread_lookup. exact Hnd.
Qed.

(** The second [Promise.all], from any value of [htmlDocuments] and
    [renderedPageIds]. *)
Lemma render_stage allPageIds needed prerenderData :
  forall acc tr docs rendered tr',
  foldM (renderUrl w allPageIds needed) prerenderData acc tr
  = (inr (docs, rendered), tr') ->
  map url docs = map url acc.1 ++ map fst prerenderData
  /\ (forall page, page ∈ rendered <->
        page ∈ acc.2
        \/ exists u r routeResult,
             In (u, r) prerenderData
             /\ route w u allPageIds (pageContext r) = Some routeResult
             /\ pageId routeResult = page)
  /\ (forall u r, In (u, r) prerenderData ->
        exists routeResult,
          route w u allPageIds (pageContext r) = Some routeResult
          /\ In (EvPrerenderPage (pageId routeResult)
                   (spread (pageContext r) (pageContextAddendum routeResult)) u
                   (negb (noPrenderPageContext r)) needed) tr')
  /\ exists more, tr' = tr ++ more.
Proof.
  induction prerenderData as [|[u0 r0] pd IH]; intros acc tr docs rendered tr' Hfold;
    cbn [foldM] in Hfold.
  - injection Hfold as Hacc Htr. subst acc tr'. cbn [fst snd map]. rewrite app_nil_r.
    repeat split; try tauto.
    + intros [H|(u & r & rr & [] & _)]. exact H.
    + intros u r [].
    + exists []. rewrite app_nil_r. reflexivity.
  - apply bind_inr in Hfold as (acc1 & tr1 & Hstep & Hfold).
    unfold renderUrl in Hstep. cbn [fst snd] in Hstep.
    destruct (route w u0 allPageIds (pageContext r0)) as [rr|] eqn:Hroute;
      [|discriminate].
    unfold bind, emit, ret in Hstep. injection Hstep as <- <-.
    destruct (IH _ _ _ _ _ Hfold) as (Hurls & Hrend & Hev & more & Hmore).
    cbn [fst snd] in *. split; [|split; [|split]].
    + rewrite Hurls, map_app. cbn [map url renderedDocument].
      rewrite <- app_assoc. reflexivity.
    + intros page. split.
      * intros [[Hp|Hp]%elem_of_union|(u & r & rr' & Hin & Hr & Hp)]%Hrend.
        -- apply elem_of_singleton in Hp. right. exists u0, r0, rr.
           repeat split; auto. left. reflexivity.
        -- left. exact Hp.
        -- right. exists u, r, rr'. repeat split; auto. right. exact Hin.
      * intros [Hp|(u & r & rr' & [Heq|Hin] & Hr & Hp)]; apply Hrend.
        -- left. apply elem_of_union. right. exact Hp.
        -- injection Heq as <- <-. left. apply elem_of_union. left.
           apply elem_of_singleton. congruence.
        -- right. exists u, r, rr'. auto.
    + intros u r [Heq|Hin]; [|apply Hev; exact Hin].
      injection Heq as <- <-. exists rr. split; [exact Hroute|].
      rewrite Hmore. apply in_or_app. left. apply in_or_app. right. left. reflexivity.
    + exists ([EvPrerenderPage (pageId rr)
                 (spread (pageContext r0) (pageContextAddendum rr)) u0
                 (negb (noPrenderPageContext r0)) needed] ++ more).
      rewrite Hmore, <- app_assoc. reflexivity.
Qed.

(** The documents of the second [Promise.all]: those there were, then one
    for every key, rendered for the page that matched it. *)
Lemma render_stage_documents allPageIds needed prerenderData :
  forall acc tr docs rendered tr',
  foldM (renderUrl w allPageIds needed) prerenderData acc tr
  = (inr (docs, rendered), tr') ->
  exists more,
    docs = acc.1 ++ more
    /\ forall u r, In (u, r) prerenderData ->
         exists routeResult,
           route w u allPageIds (pageContext r) = Some routeResult
           /\ In (renderedDocument u
                    (prerenderPage w (pageId routeResult)
                       (spread (pageContext r) (pageContextAddendum routeResult)) u
                       (negb (noPrenderPageContext r)) needed)) more.
Proof.
  induction prerenderData as [|[u0 r0] pd IH]; intros acc tr docs rendered tr' Hfold;
    cbn [foldM] in Hfold.
  - injection Hfold as Hacc Htr. subst acc. exists []. cbn [fst]. rewrite app_nil_r.
    split; [reflexivity | intros u r []].
  - apply bind_inr in Hfold as (acc1 & tr1 & Hstep & Hfold).
    unfold renderUrl in Hstep. cbn [fst snd] in Hstep.
    destruct (route w u0 allPageIds (pageContext r0)) as [rr|] eqn:Hroute;
      [|discriminate].
    unfold bind, emit, ret in Hstep. injection Hstep as <- <-.
    destruct (IH _ _ _ _ _ Hfold) as (more & Hdocs & Hin). cbn [fst] in Hdocs.
    eexists (_ :: more). split.
    + rewrite Hdocs, <- app_assoc. reflexivity.
    + intros u r [Heq | Hpd].
      * injection Heq as <- <-. exists rr. split; [exact Hroute | left; reflexivity].
      * destruct (Hin u r Hpd) as (rr' & Hr & Hd). exists rr'.
        split; [exact Hr | right; exact Hd].
Qed.

(** X10: in whatever order the tasks of the second [Promise.all] push their
    documents, when none of them throws there is one document per key of
    [prerenderData], with the key as URL; every key was matched by a page,
    and the page was rendered, with the context of the key merged with the
    route's addendum, into one of the documents; and [renderedPageIds]
    holds exactly the pages that matched. *)
Theorem hook_urls_are_rendered_once allPageIds needed prerenderData order tr
  docs rendered tr' :
  Permutation order prerenderData ->
  foldM (renderUrl w allPageIds needed) order ([], ∅) tr
  = (inr (docs, rendered), tr') ->
  Permutation (map url docs) (map fst prerenderData)
  /\ (forall page, page ∈ rendered <->
        exists u r routeResult,
          In (u, r) prerenderData
          /\ route w u allPageIds (pageContext r) = Some routeResult
          /\ pageId routeResult = page)
  /\ (forall u r, In (u, r) prerenderData ->
        exists routeResult,
          route w u allPageIds (pageContext r) = Some routeResult
          /\ In (EvPrerenderPage (pageId routeResult)
                   (spread (pageContext r) (pageContextAddendum routeResult)) u
                   (negb (noPrenderPageContext r)) needed) tr'
          /\ In (renderedDocument u
                   (prerenderPage w (pageId routeResult)
                      (spread (pageContext r) (pageContextAddendum routeResult)) u
                      (negb (noPrenderPageContext r)) needed)) docs).
Proof.
  intros Horder H.
  destruct (render_stage _ _ _ _ _ _ _ _ H) as (Hurls & Hrend & Hev & _).
  destruct (render_stage_documents _ _ _ _ _ _ _ _ H) as (more & Hdocs & Hin).
  cbn [fst snd map app] in *. subst docs. split; [|split].
  - rewrite Hurls. apply Permutation_map. exact Horder.
  - intros page. split.
    + intros [Hp|(u & r & rr & Hp & Hr)]%Hrend;
        [apply not_elem_of_empty in Hp; destruct Hp |].
      exists u, r, rr. split; [|exact Hr].
      apply (Permutation_in _ Horder). exact Hp.
    + intros (u & r & rr & Hp & Hr). apply Hrend. right. exists u, r, rr.
      split; [|exact Hr].
      apply (Permutation_in _ (Permutation_sym Horder)). exact Hp.
  - intros u r Hp. apply (Permutation_in _ (Permutation_sym Horder)) in Hp.
    destruct (Hev u r Hp) as (rr & Hr & He).
    destruct (Hin u r Hp) as (rr' & Hr' & Hd).
    rewrite Hr in Hr'. injection Hr' as <-. exists rr. auto.
Qed.

(** X11: no page is passed over in silence.  When the second [Promise.all]
    did not throw and the static URLs start with a slash, every page of
    [allPageIds] has a call of [prerenderPage] among the events of the run,
    or has no static URL and then, unless [partial] is true, the warning
    about it is among the events. *)
Theorem every_page_is_rendered_or_reported (o : Options) needed allPageIds
  prerenderData tr1 docs1 renderedPageIds tr2 page :
  foldM (renderUrl w allPageIds needed) prerenderData ([], ∅) tr1
  = (inr (docs1, renderedPageIds), tr2) ->
  (forall page u, In page allPageIds -> page ∉ renderedPageIds ->
     Spec.staticUrl w allPageIds page = Some u -> startsWith u "/" = true) ->
  In page allPageIds ->
  let events := snd (renderAndWrite w o (needed, allPageIds, prerenderData) tr1) in
  (exists pageContext' u skip,
     In (EvPrerenderPage page pageContext' u skip needed) events)
  \/ (Spec.staticUrl w allPageIds page = None
      /\ (truthy (orDefault (partial o) (JBool false)) = false ->
          In (EvWarn (nonStaticRouteMsg page)) events)).
Proof.
  intros Hurls Hslash Hpage events.
  set (partial := truthy (orDefault (Prerender.partial o) (JBool false))) in *.
  set (pages := filter (fun page => page ∉ renderedPageIds) allPageIds).
  assert (Hrun : exists more,
    events = (tr2 ++ flat_map (Spec.staticEvents w partial allPageIds needed) pages)
             ++ more).
  { subst events. unfold renderAndWrite. cbn [fst snd]. unfold bind at 1.
    rewrite Hurls. cbn [fst snd]. unfold bind at 1.
    rewrite renderStaticPages_static.
    - apply (uniform_extends (fallbackAndWrite w (root o) _)).
      apply uniform_fallbackAndWrite.
    - intros page' u [Hnot Hin]%list_elem_of_In%list_elem_of_filter.
      apply Hslash; [apply list_elem_of_In; exact Hin | exact Hnot]. }
  destruct Hrun as [more Hrun].
  destruct (render_stage _ _ _ _ _ _ _ _ Hurls) as (_ & Hrend & Hev & _).
  destruct (decide (page ∈ renderedPageIds)) as [Hin|Hnot].
  - left. apply Hrend in Hin as [Hin|(u & r & rr & Hin & Hroute & Hp)];
      [apply not_elem_of_empty in Hin; destruct Hin|].
    destruct (Hev u r Hin) as (rr' & Hroute' & Hevent).
    assert (rr' = rr) as -> by congruence. subst page.
    do 3 eexists. rewrite Hrun. apply in_or_app. left. apply in_or_app. left.
    exact Hevent.
  - assert (Hstatic : forall e,
      In e (Spec.staticEvents w partial allPageIds needed page) -> In e events).
    { intros e He. rewrite Hrun. apply in_or_app. left. apply in_or_app. right.
      apply in_flat_map. exists page. split; [|exact He].
      apply list_elem_of_In, list_elem_of_filter. split; [exact Hnot|].
      apply list_elem_of_In. exact Hpage. }
    unfold Spec.staticEvents in Hstatic.
    destruct (Spec.staticUrl w allPageIds page) as [u|].
    + left. do 3 eexists. apply Hstatic. left. reflexivity.
    + right. split; [reflexivity|]. intros Hpartial. apply Hstatic.
      rewrite Hpartial. left. reflexivity.
Qed.

End RenderStage.

(** ** Options and the build manifest *)

Section OptionsAndManifest.
Import Prerender.
Variable w : World.

(** X12: when [partial] is given and is not a boolean, the run throws the
    usage error about the option before it logs or does anything. *)
Theorem partial_must_be_boolean (o : Options) :
  (forall b, orDefault (partial o) (JBool false) <> JBool b) ->
  run (prerender w o) = (inl (UsageError partialOptionMsg), []).
Proof.
  intros Hnot. unfold run, prerender, assertArguments.
  destruct (orDefault (partial o) (JBool false)) as [| |b| | | | | | |] eqn:E;
    try reflexivity.
  destruct (Hnot b eq_refl).
Qed.

Lemma assertArguments_warns b clientRouter base tr :
  assertArguments (JBool b) (orDefault clientRouter (JBool false)) base tr
  = (inr tt, tr ++ deprecationWarnings clientRouter base).
Proof.
  unfold assertArguments, deprecationWarnings, assertWarning, bind, liftR, emit, ret.
  cbn [assertUsage].
  destruct (orDefault clientRouter (JBool false)) as [| |[|]| | | | | | |], base;
    cbn; rewrite ?app_nil_r, <- ?app_assoc; reflexivity.
Qed.

Lemma prerender_same_arguments (o o' : Options) tr tr' tr1 :
  partial o = partial o' ->
  root o = root o' ->
  assertArguments (orDefault (partial o) (JBool false))
                  (orDefault (clientRouter o) (JBool false)) (base o) tr
  = (inr tt, tr1) ->
  assertArguments (orDefault (partial o') (JBool false))
                  (orDefault (clientRouter o') (JBool false)) (base o') tr'
  = (inr tt, tr1) ->
  prerender w o tr = prerender w o' tr'.
Proof.
  intros Hp Hr H1 H2. unfold prerender. unfold bind at 1. rewrite H1.
  symmetry. unfold bind at 1. rewrite H2. rewrite Hp, Hr. reflexivity.
Qed.

(** X13: the deprecated options [clientRouter] and [base] only add warnings:
    when [partial] is a boolean, the run is the run without these options,
    with the warnings about them in front of its events. *)
Theorem deprecated_options_only_warn (o : Options) (b : bool) :
  orDefault (partial o) (JBool false) = JBool b ->
  run (prerender w o)
  = (fst (run (prerender w (withoutDeprecated o))),
     deprecationWarnings (clientRouter o) (base o)
     ++ snd (run (prerender w (withoutDeprecated o)))).
Proof.
  intros Hb. unfold run.
  rewrite <- (uniform_prerender w (withoutDeprecated o)
                (deprecationWarnings (clientRouter o) (base o))).
  apply (prerender_same_arguments _ _ _ _
           ([] ++ deprecationWarnings (clientRouter o) (base o)));
    try reflexivity.
  - rewrite Hb. apply assertArguments_warns.
  - cbn [withoutDeprecated partial clientRouter base]. rewrite Hb.
    rewrite (assertArguments_warns b JUndefined JUndefined).
    cbn. rewrite app_nil_r. reflexivity.
Qed.

Lemma js_get_hasProp content k :
  hasProp content k = true ->
  exists v props,
    (content = JObj props \/ content = JInst props)
    /\ assoc_lookup k props = Some v
    /\ js_get content k = inr v.
Proof.
  destruct content; cbn; try discriminate; intros [v Hv]%assoc_mem_true;
    exists v, props; rewrite Hv; auto.
Qed.

(** X15: when the manifest file exists, [getPluginManifest] returns a
    manifest exactly when the content loaded from it has the properties
    [version], [base] and [doesClientSideRouting], [base] being a string and
    [doesClientSideRouting] a boolean; the manifest returned has these two
    values, the path of the file, and the running version. *)
Theorem manifest_is_read_or_rejected (root : string) :
  moduleExists w (pluginManifestPathOf root) = true ->
  let content := require w (pluginManifestPathOf root) in
  forall pluginManifest path,
    getPluginManifest w root = inr (Some pluginManifest, path) <->
    path = pluginManifestPathOf root
    /\ manifestVersion pluginManifest = version w
    /\ hasProp content "version" = true
    /\ hasProp content "base" = true
    /\ hasProp content "doesClientSideRouting" = true
    /\ js_get content "base" = inr (JStr (manifestBase pluginManifest))
    /\ js_get content "doesClientSideRouting"
       = inr (JBool (doesClientSideRouting pluginManifest)).
Proof.
  intros Hexists content.
  intros [v b r] path. unfold getPluginManifest. rewrite Hexists. cbn [negb].
  fold content. cbn [manifestVersion manifestBase doesClientSideRouting].
  split.
  - intros H.
    apply bindR_inr in H as ([] & Hv & H).
    apply bindR_inr in H as ([] & Hb & H).
    apply bindR_inr in H as ([] & Hr & H).
    apply bindR_inr in H as (bv & Hbv & H).
    apply bindR_inr in H as (rv & Hrv & H).
    destruct rv; try discriminate. destruct bv; try discriminate.
    cbn in H. injection H as <- <- <- <-.
    repeat split; auto.
    + destruct (hasProp content "version"); [reflexivity | discriminate].
    + destruct (hasProp content "base"); [reflexivity | discriminate].
    + destruct (hasProp content "doesClientSideRouting"); [reflexivity | discriminate].
  - intros (-> & -> & Hv & Hb & Hr & Hbv & Hrv).
    rewrite Hv, Hb, Hr, Hbv, Hrv. reflexivity.
Qed.

End OptionsAndManifest.

(** ** More on the write phase *)

Section WriteOrder.
Import Prerender.
Variable w : World.

Lemma loud_ret {A} (x : A) : loud (ret x).
Proof. intros tr. exists []. rewrite app_nil_r. split; [reflexivity | constructor]. Qed.

Lemma loud_bind {A B} (m : M A) (k : A -> M B) :
  loud m -> (forall x, loud (k x)) -> loud (bind m k).
Proof.
  intros Hm Hk tr. unfold bind. destruct (Hm tr) as (more & E & F).
  destruct (m tr) as [[e|x] tr']; cbn [snd] in *; subst tr'.
  - exists more. split; [reflexivity | exact F].
  - destruct (Hk x (tr ++ more)) as (more' & E' & F').
    exists (more ++ more'). rewrite E', app_assoc. split; [reflexivity|].
    apply Forall_app; split; assumption.
Qed.

Lemma loud_foldM {A B} (step : A -> B -> M A) (l : list B) :
  (forall a x, loud (step a x)) -> forall a, loud (foldM step l a).
Proof.
  intros Hstep. induction l as [|x l IH]; intros a; cbn [foldM].
  - apply loud_ret.
  - apply loud_bind; auto.
Qed.

Lemma writeIssued_loud jobs :
  Forall (fun e => isWriteEvent e = true) (concat (map writeIssued jobs)).
Proof. induction jobs; cbn; repeat constructor. assumption. Qed.

Lemma writeResumed_loud jobs :
  Forall (fun e => isWriteEvent e = true) (concat (concat (map writeResumed jobs))).
Proof. induction jobs; cbn; repeat constructor. assumption. Qed.

Lemma loud_writeHtmlDocument d root : loud (writeHtmlDocument w d root).
Proof.
  intros tr. unfold writeHtmlDocument, bind, liftR, emits.
  destruct (assert (startsWith (url d) "/")) as [e|[]].
  - exists []. rewrite app_nil_r. split; [reflexivity | constructor].
  - destruct (firstRejection (writeCalls w d root)).
    + eexists. split; [reflexivity | apply writeIssued_loud].
    + eexists. cbn [snd]. rewrite <- app_assoc. split; [reflexivity|].
      apply Forall_app. split; [apply writeIssued_loud | apply writeResumed_loud].
Qed.

Lemma phased_quiet {A} (m : M A) : quiet m -> phased m.
Proof.
  intros Hm tr. destruct (Hm tr) as (more & E & F).
  exists more, []. rewrite app_nil_r. repeat split; auto. congruence.
Qed.

Lemma phased_bind {A B} (m : M A) (k : A -> M B) :
  quiet m -> (forall x, phased (k x)) -> phased (bind m k).
Proof.
  intros Hm Hk tr. unfold bind. destruct (Hm tr) as (more & E & F).
  destruct (m tr) as [[e|x] tr']; cbn [snd] in *; subst tr'.
  - exists more, []. rewrite app_nil_r. repeat split; auto. congruence.
  - destruct (Hk x (tr ++ more)) as (before & writes & E' & Fb & Fw & Hlast).
    exists (more ++ before), writes. rewrite E', <- !app_assoc.
    repeat split; auto.
    + apply Forall_app; split; assumption.
    + intros (rest & count & ->)%Hlast. exists (more ++ rest), count.
      rewrite app_assoc. reflexivity.
Qed.

Lemma phased_log_then_write {A} count (m : M A) :
  loud m -> phased (bind (emit (EvLog (LogRendered count))) (fun _ => m)).
Proof.
  intros Hm tr. unfold bind, emit. destruct (Hm (tr ++ [EvLog (LogRendered count)]))
    as (more & E & F).
  exists [EvLog (LogRendered count)], more. rewrite E, <- app_assoc.
  split; [reflexivity|]. split; [repeat constructor|]. split; [exact F|].
  intros _. exists [], count. reflexivity.
Qed.

Lemma quiet_renderStaticPage partial allPageIds needed docs page :
  quiet (renderStaticPage w partial allPageIds needed docs page).
Proof.
  unfold renderStaticPage, renderAt.
  repeat first
    [ apply quiet_ret | apply quiet_assertWarning | apply quiet_liftR
    | apply quiet_emit; reflexivity
    | apply quiet_bind; [|intros ?]
    | match goal with
      | |- quiet (match ?x with _ => _ end) => destruct x
      | |- quiet (if ?x then _ else _) => destruct x
      end ].
Qed.

(** X16: in every run, whether it returns or throws, the events that belong
    to the writing of files come after all other events: nothing is
    rendered, warned or thrown by a hook stage once the first [mkdir] is
    issued; and when something is written, the event just before is the log
    of the number of documents rendered. *)
Theorem rendering_precedes_writing (o : Options) :
  exists before writes,
    snd (run (prerender w o)) = before ++ writes
    /\ Forall (fun e => isWriteEvent e = false) before
    /\ Forall (fun e => isWriteEvent e = true) writes
    /\ (writes <> [] ->
        exists rest count, before = rest ++ [EvLog (LogRendered count)]).
Proof.
  assert (H : phased (prerender w o)).
  { unfold prerender, assertArguments.
    apply phased_bind; [|intros _].
    { apply quiet_bind; [apply quiet_liftR | intros _].
      apply quiet_bind; [|intros _]; apply quiet_assertWarning. }
    apply phased_bind; [apply quiet_emit; reflexivity | intros _].
    apply phased_bind; [apply quiet_liftR|].
    intros [[pluginManifest|] path]; cbn [fst snd];
      [|apply phased_quiet, quiet_throw].
    apply phased_bind; [apply quiet_liftR | intros _].
    do 3 (apply phased_bind; [apply quiet_emit; reflexivity | intros _]).
    apply phased_bind; [apply quiet_foldM; intros; apply quiet_collectPage|].
    intros prerenderData.
    apply phased_bind; [apply quiet_foldM; intros; apply quiet_renderUrl|].
    intros rendered.
    apply phased_bind; [apply quiet_foldM; intros; apply quiet_renderStaticPage|].
    intros docs. apply phased_bind.
    { unfold renderFallback404. destruct (negb _); [|apply quiet_ret].
      apply quiet_bind; [apply quiet_emit; reflexivity | intros _].
      destruct (renderStatic404Page w); apply quiet_ret. }
    intros docs'. apply phased_log_then_write.
    apply loud_foldM. intros. apply loud_writeHtmlDocument. }
  destruct (H []) as (before & writes & E & F). exists before, writes.
  split; [exact E | exact F].
Qed.

Lemma all_nil_concat {A} (pending : list (list A)) :
  Forall (fun l => l = []) pending -> concat pending = [].
Proof. induction 1 as [|l pending -> _ IH]; [reflexivity | exact IH]. Qed.

(** A schedule runs the pending items, each once. *)
Lemma interleave_permutation {A} (pending : list (list A)) tr :
  Interleave pending tr -> Permutation tr (concat pending).
Proof.
  induction 1 as [pending Hall | before x l after tr _ IH].
  - rewrite all_nil_concat by exact Hall. constructor.
  - rewrite concat_app in *. cbn [concat] in *.
    apply (Permutation_cons_app (concat before) (l ++ concat after)). exact IH.
Qed.

Lemma concat_permutation {A} (l l' : list (list A)) :
  Permutation l l' -> Permutation (concat l) (concat l').
Proof.
  induction 1 as [|x l l' _ IH|x y l|l l' l'' _ IH1 _ IH2]; cbn [concat].
  - constructor.
  - apply Permutation_app_head. exact IH.
  - rewrite !app_assoc. apply Permutation_app_tail, Permutation_app_comm.
  - etransitivity; eassumption.
Qed.

(** X17: whatever the order in which the jobs of a document are resumed, the
    operations performed are those of the trace in which the jobs are taken
    one after the other: the same [mkdir] and [writeFile], each as often. *)
Theorem schedules_perform_the_same_operations d root t :
  DocWrites w d root true t ->
  fst (run (writeHtmlDocument w d root)) = inr tt
  /\ Permutation t (snd (run (writeHtmlDocument w d root))).
Proof.
  intros Hdoc. inversion Hdoc as [| |stretches Hslash Hrej Hsched]; subst.
  unfold run, writeHtmlDocument, bind, liftR, emits. rewrite Hslash, Hrej.
  cbn [assert fst snd app]. split; [reflexivity|].
  apply Permutation_app_head, concat_permutation, interleave_permutation.
  exact Hsched.
Qed.

(** X18: in every schedule of a document, a file is written only when the
    [mkdir] of its directory is done: each [writeFile] is issued by a job of
    the document right after the [mkdir] of that job's directory is done,
    and that [mkdir] was issued before. *)
Theorem file_is_written_after_its_directory d root t path content :
  DocWrites w d root true t ->
  In (EvIssue (WriteFile path content)) t ->
  exists job before after,
    In job (started (writeCalls w d root))
    /\ jobFilePath job = path
    /\ jobContent job = content
    /\ t = before ++ EvDone (Mkdir (jobDirectory job))
                  :: EvIssue (WriteFile path content) :: after
    /\ In (EvIssue (Mkdir (jobDirectory job))) before.
Proof.
  intros Hdoc Hin. inversion Hdoc as [| |stretches _ _ Hsched]; subst.
  set (jobs := started (writeCalls w d root)) in *.
  apply in_app_or in Hin as [Hin|Hin].
  { exfalso. clear -Hin. induction jobs as [|j jobs IH]; cbn in Hin; [exact Hin|].
    destruct Hin as [Hin|Hin]; [discriminate | auto]. }
  apply in_concat in Hin as (stretch & Hstretch & Hin).
  assert (Hfrom : In stretch (concat (map writeResumed jobs))).
  { apply (Permutation_in _ (interleave_permutation _ _ Hsched)). exact Hstretch. }
  apply in_concat in Hfrom as (resumed & Hres & Hs).
  apply in_map_iff in Hres as (job & <- & Hjob).
  apply in_split in Hstretch as (s1 & s2 & ->).
  destruct Hs as [<-|[<-|[]]].
  - destruct Hin as [Hin|[Hin|[]]]; [discriminate|]. injection Hin as <- <-.
    exists job, (concat (map writeIssued jobs) ++ concat s1), (concat s2).
    repeat split; auto.
    + rewrite concat_app. cbn [concat app]. rewrite <- !app_assoc. reflexivity.
    + apply in_or_app. left. apply in_concat. exists (writeIssued job).
      split; [apply in_map; exact Hjob | left; reflexivity].
  - destruct Hin as [Hin|[Hin|[]]]; discriminate.
Qed.

End WriteOrder.

(** ** [getPage] *)

Section GetPageFacts.
Import Browser.

(** X19: a URL that changed since the module was loaded does not change
    what [getPage] resolves to or throws; [getPage] prints the warning
    about the two paths exactly when it resolves and the path differs from
    the original one, and prints nothing otherwise. *)
Theorem url_change_only_warns (win : Window) (u : string) :
  fst (getPage (navigated win u)) = fst (getPage win)
  /\ snd (getPage (navigated win u))
     = if isOk (fst (getPage win)) && negb (String.eqb (urlPathnameOriginal win) u)
       then [pristineUrlMsg (urlPathnameOriginal win) u]
       else [].
Proof.
  unfold getPage, getPageInfo, assertPristineUrl.
  cbn [navigated urlPathnameOriginal urlFullOriginal urlPathnameCurrent
       serializedPageContext addUrlToPageContext getPageContextProxy getPageFile].
  destruct (assoc_lookup "pageId" _) as [[]|]; try (split; reflexivity).
  destruct (truthy _ && truthy _); [|split; reflexivity].
  destruct (Client.getPageById _ _); [split; reflexivity|].
  cbn [fst snd isOk andb]. split; [reflexivity|].
  destruct (String.eqb _ u); reflexivity.
Qed.

Lemma getPageById_usage_error gpf pageId msg :
  Client.getPageById gpf pageId = inl (UsageError msg) ->
  exists pageFile,
    gpf ".page" pageId = Some pageFile
    /\ msg = Client.missingPageExport (Client.filePath pageFile)
    /\ hasProp (Client.loadFile pageFile) "Page" = false
    /\ hasProp (Client.loadFile pageFile) "default" = false.
Proof.
  intros H. destruct (gpf ".page" pageId) as [pf|] eqn:Hfile.
  - exists pf. split; [reflexivity|].
    destruct (Client.loadFile pf) eqn:E;
      try (rewrite (getPageById_not_object gpf pageId pf Hfile) in H
             by (rewrite E; congruence);
           injection H as <-; rewrite ?E; repeat split; reflexivity).
    + unfold Client.getPageById in H. rewrite Hfile, E in H. discriminate.
    + rewrite (getPageById_object gpf pageId pf props Hfile (or_introl E)) in H.
      cbn [hasProp].
      destruct (assoc_mem "Page" props), (assoc_mem "default" props);
        try discriminate. injection H as <-. auto.
    + rewrite (getPageById_object gpf pageId pf props Hfile (or_intror E)) in H.
      cbn [hasProp].
      destruct (assoc_mem "Page" props), (assoc_mem "default" props);
        try discriminate. injection H as <-. auto.
  - unfold Client.getPageById in H. rewrite Hfile in H. discriminate.
Qed.

(** X20: the only usage error that [getPage] throws is the one about the
    exports of the page file: the serialized [pageContext] then has a string
    [pageId], the file of that page was found, and its exports expose
    neither [Page] nor [default]. *)
Theorem getPage_usage_error_is_missing_export (win : Window) (msg : string) :
  fst (getPage win) = inl (UsageError msg) ->
  exists pageId pageContext pageFile,
    getPageInfo win = inr (pageId, pageContext)
    /\ getPageFile win ".page" pageId = Some pageFile
    /\ msg = Client.missingPageExport (Client.filePath pageFile)
    /\ hasProp (Client.loadFile pageFile) "Page" = false
    /\ hasProp (Client.loadFile pageFile) "default" = false.
Proof.
  unfold getPage. destruct (getPageInfo win) as [e|[pageId pageContext]] eqn:Hinfo.
  - unfold getPageInfo in Hinfo. cbn [fst]. intros H. injection H as ->.
    destruct (assoc_lookup "pageId" _) as [[]|]; discriminate.
  - destruct (truthy _ && truthy _); [|discriminate].
    destruct (Client.getPageById _ _) eqn:Hpage; [|discriminate].
    cbn [fst]. intros H. injection H as ->.
    apply getPageById_usage_error in Hpage as (pf & Hfile & Hmsg & Hp & Hd).
    exists pageId, pageContext, pf. auto.
Qed.

End GetPageFacts.

(** ** The properties on the small site *)

Section DemoChecks.
Import Prerender.

Lemma normalized_entries_follow_elements_witness :
  Forall2 Spec.entryFor
    [Demo.movieTitle; JStr "/movie/2"]
    [ {| entryUrl := "/movie/2"; entryPageContext := Some [("title", JStr "X")] |};
      {| entryUrl := "/movie/2"; entryPageContext := None |} ].
Proof.
  exact (normalized_entries_follow_elements "/pages/movie.page.server.js"
           Demo.titleThenBare _ eq_refl).
Defined.

Lemma normalization_error_names_file_witness :
  exists msg,
    normalizePrerenderResult (JArr [JStr "/a"; JNum 3]) "hook.js" = inl (UsageError msg)
    /\ mentions msg "hook.js".
Proof.
  destruct (normalization_error_names_file "hook.js" (JArr [JStr "/a"; JNum 3])
              (UsageError (invalidValueMsg "hook.js")) eq_refl)
    as (msg & Hmsg & Hmentions).
  exists msg. injection Hmsg as <-. split; [reflexivity | exact Hmentions].
Defined.

Lemma unknown_key_is_reported_witness :
  normalize "hook.js" (JObj [("url", JStr "/a"); ("title", JStr "X");
                             ("pageContext", JNum 1)])
  = inl (UsageError (unexpectedKeyMsg "hook.js" "title")).
Proof.
  apply (unknown_key_is_reported "hook.js"
           [("url", JStr "/a"); ("title", JStr "X"); ("pageContext", JNum 1)]
           "/a" "title"); reflexivity.
Defined.

Lemma first_invalid_element_decides_witness :
  normalizePrerenderResult (JArr [JStr "/a"; JNum 1; JBool true]) "hook.js"
  = inl (UsageError (invalidValueMsg "hook.js")).
Proof.
  apply (first_invalid_element_decides "hook.js" [JStr "/a"] [JBool true] (JNum 1));
    [repeat constructor | reflexivity].
Defined.

Lemma one_record_per_url_witness :
  NoDup (map fst
    [("/movie/2", {| prerenderSourceFile := "hook.js";
                     pageContext := [("year", JNum 1999)];
                     noPrenderPageContext := false |})]).
Proof.
  refine (proj1 (one_record_per_url "hook.js"
            [ {| entryUrl := "/movie/2"; entryPageContext := Some [("title", JStr "X")] |};
              {| entryUrl := "/movie/2"; entryPageContext := Some [("year", JNum 1999)] |} ]
            [] _ _ _ eq_refl)).
  - intros u r [].
  - constructor.
Defined.

Lemma gathered_urls_are_wellformed_witness :
  let w := Demo.site (Some (Demo.manifestOf "0.1.0")) Demo.titleThenYear in
  declaredBy w ["/pages/index"; "/pages/about"; "/pages/movie"]
             "/movie/2" "/pages/movie.page.server.js".
Proof.
  intros w.
  destruct (gathered_urls_are_wellformed w (Demo.options JUndefined) [] true
              ["/pages/index"; "/pages/about"; "/pages/movie"]
              [("/movie/2",
                {| prerenderSourceFile := "/pages/movie.page.server.js";
                   pageContext := [("year", JNum 1999)];
                   noPrenderPageContext := false |})]
              [EvLog (LogBanner "0.1.0"); EvSetSsrEnv "/app" "/"; EvGetPageIds;
               EvLoadPageRoutes; EvHook "/pages/movie.page.server.js"])
    as (_ & _ & _ & Hd).
  - vm_compute. reflexivity.
  - exact (Hd "/movie/2" _ (or_introl eq_refl)).
Defined.

Lemma last_entry_decides_witness :
  assoc_lookup "/movie/2"
    [("/movie/2", {| prerenderSourceFile := "hook.js";
                     pageContext := [];
                     noPrenderPageContext := true |})]
  = Some {| prerenderSourceFile := "hook.js";
            pageContext := [];
            noPrenderPageContext := true |}.
Proof.
  refine (last_entry_decides "hook.js"
            [ {| entryUrl := "/movie/2"; entryPageContext := Some [("title", JStr "X")] |} ]
            {| entryUrl := "/movie/2"; entryPageContext := None |}
            [] _ _ eq_refl).
  intros u r [].
Defined.

Lemma entries_fail_only_on_missing_slash_witness :
  foldR (addEntry "/pages/movie.page.server.js")
        [ {| entryUrl := "/movie/1"; entryPageContext := Some [("title", JStr "X")] |};
          {| entryUrl := "movie/2"; entryPageContext := None |} ]
        []
  = inl InternalError.
Proof.
  apply (proj1 (entries_fail_only_on_missing_slash "/pages/movie.page.server.js" _ []
                  (fun u r (H : In (u, r) []) => match H with end))).
  exists {| entryUrl := "movie/2"; entryPageContext := None |}.
  split; [right; left; reflexivity | reflexivity].
Defined.

Lemma route_addendum_overrides_hook_context_witness :
  let w := Demo.site None JNull in
  let r := {| prerenderSourceFile := "hook.js";
              pageContext := [("routeParams", JStr "mine"); ("title", JStr "X")];
              noPrenderPageContext := false |} in
  exists pageContext',
    snd (renderUrl w [] true ([], ∅) ("/movie/2", r) [])
    = [EvPrerenderPage "/pages/movie" pageContext' "/movie/2" true true]
    /\ assoc_lookup "routeParams" pageContext' = Some (JObj [("movieId", JStr "2")])
    /\ assoc_lookup "title" pageContext' = Some (JStr "X").
Proof.
  intros w r.
  destruct (route_addendum_overrides_hook_context w [] true ([], ∅) "/movie/2" r
              {| pageId := "/pages/movie";
                 pageContextAddendum :=
                   [("routeParams", JObj [("movieId", JStr "2")])] |} [])
    as (pc & Hev & Hpc).
  - reflexivity.
  - repeat constructor. intros []%list_elem_of_In.
  - exists pc. split; [exact Hev|]. split; [exact (Hpc "routeParams") | exact (Hpc "title")].
Defined.

Lemma hook_urls_are_rendered_once_witness :
  let w := Demo.site None JNull in
  let r := {| prerenderSourceFile := "hook.js"; pageContext := [];
              noPrenderPageContext := true |} in
  exists docs rendered tr,
    foldM (renderUrl w [] true) [("/about", r); ("/movie/1", r)] ([], ∅) []
    = (inr (docs, rendered), tr)
    /\ Permutation (map url docs) ["/movie/1"; "/about"].
Proof.
  intros w r.
  destruct (foldM (renderUrl w [] true) [("/about", r); ("/movie/1", r)] ([], ∅) [])
    as [[e|[docs rendered]] tr] eqn:E.
  - vm_compute in E. discriminate.
  - exists docs, rendered, tr. split; [reflexivity|].
    exact (proj1 (hook_urls_are_rendered_once w [] true
                    [("/movie/1", r); ("/about", r)] [("/about", r); ("/movie/1", r)]
                    [] docs rendered tr (perm_swap _ _ []) E)).
Defined.

Lemma every_page_is_rendered_or_reported_witness :
  let w := Demo.site (Some (Demo.manifestOf "0.1.0")) (JArr []) in
  let pageIds := ["/pages/index"; "/pages/about"; "/pages/movie"] in
  let events := snd (renderAndWrite w (Demo.options JUndefined) (true, pageIds, []) []) in
  (exists pageContext' u skip,
     In (EvPrerenderPage "/pages/movie" pageContext' u skip true) events)
  \/ (Spec.staticUrl w pageIds "/pages/movie" = None
      /\ (truthy (orDefault (partial (Demo.options JUndefined)) (JBool false)) = false ->
          In (EvWarn (nonStaticRouteMsg "/pages/movie")) events)).
Proof.
  intros w pageIds.
  apply (every_page_is_rendered_or_reported w (Demo.options JUndefined) true pageIds
           [] [] [] ∅ [] "/pages/movie" eq_refl).
  - intros page u [<-|[<-|[<-|[]]]] _; vm_compute; intros H; inversion H; reflexivity.
  - right. right. left. reflexivity.
Defined.

Lemma partial_must_be_boolean_witness :
  run (prerender (Demo.site None JNull) (Demo.options (JStr "yes")))
  = (inl (UsageError partialOptionMsg), []).
Proof.
  apply (partial_must_be_boolean (Demo.site None JNull) (Demo.options (JStr "yes"))).
  intros b. discriminate.
Defined.

Lemma deprecated_options_only_warn_witness :
  let w := Demo.site None JNull in
  let o := {| partial := JBool true; root := "/app";
              clientRouter := JBool true; base := JStr "/docs/" |} in
  snd (run (prerender w o))
  = [EvWarn clientRouterOptionMsg; EvWarn baseOptionMsg]
    ++ snd (run (prerender w (withoutDeprecated o))).
Proof.
  intros w o.
  exact (f_equal snd (deprecated_options_only_warn w o true eq_refl)).
Defined.

Lemma missing_manifest_aborts_witness :
  exists warnings,
    run (prerender (Demo.site None JNull) (Demo.options JUndefined))
    = (inl (UsageError (manifestMissingMsg "/app/dist/client/vite-plugin-ssr.json")),
       warnings ++ [EvLog (LogBanner "0.1.0")]).
Proof.
  destruct (missing_manifest_aborts (Demo.site None JNull) (Demo.options JUndefined)
              eq_refl (ex_intro _ false eq_refl)) as (warnings & Hrun & _).
  exists warnings. exact Hrun.
Defined.

Lemma manifest_is_read_or_rejected_witness :
  let w := Demo.site (Some (Demo.manifestOf "0.0.9")) JNull in
  getPluginManifest w "/app"
  = inr (Some {| manifestVersion := "0.1.0"; manifestBase := "/";
                 doesClientSideRouting := true |},
         "/app/dist/client/vite-plugin-ssr.json").
Proof.
  intros w.
  apply (manifest_is_read_or_rejected w "/app" eq_refl).
  repeat split; reflexivity.
Defined.

Lemma schedules_perform_the_same_operations_witness :
  Permutation Demo.sidecarFirst
    (snd (run (writeHtmlDocument (Demo.site None JNull) Demo.movieDocument "/app"))).
Proof.
  exact (proj2 (schedules_perform_the_same_operations (Demo.site None JNull)
                  Demo.movieDocument "/app" Demo.sidecarFirst sidecarFirst_scheduled)).
Defined.

Lemma file_is_written_after_its_directory_witness :
  exists job before after,
    jobFilePath job = "/app/dist/client/movie/2/index.pageContext.json"
    /\ Demo.sidecarFirst
       = before ++ EvDone (Mkdir (jobDirectory job))
                :: EvIssue (WriteFile "/app/dist/client/movie/2/index.pageContext.json" "{}")
                :: after.
Proof.
  destruct (file_is_written_after_its_directory (Demo.site None JNull)
              Demo.movieDocument "/app" Demo.sidecarFirst
              "/app/dist/client/movie/2/index.pageContext.json" "{}"
              sidecarFirst_scheduled)
    as (job & before & after & _ & Hpath & _ & Ht & _).
  - right. right. right. left. reflexivity.
  - exists job, before, after. split; [exact Hpath | exact Ht].
Defined.

Lemma getPage_usage_error_is_missing_export_witness :
  exists pageFile,
    Browser.getPageFile (Demo.window (JObj [("render", JFun "render")]))
                        ".page" "/pages/index" = Some pageFile
    /\ hasProp (Client.loadFile pageFile) "Page" = false.
Proof.
  destruct (getPage_usage_error_is_missing_export
              (Demo.window (JObj [("render", JFun "render")]))
              (Client.missingPageExport "/pages/index.page.jsx") eq_refl)
    as (pageId & pageContext & pageFile & Hinfo & Hfile & _ & Hpage & _).
  exists pageFile. vm_compute in Hinfo. injection Hinfo as <- _.
  split; [exact Hfile | exact Hpage].
Defined.

End DemoChecks.

(** ** The files of a document *)

Section FilesWritten.
Import Prerender.
Variable w : World.

Lemma filesWritten_app t1 t2 : filesWritten (t1 ++ t2) = filesWritten t1 ++ filesWritten t2.
Proof. apply flat_map_app. Qed.

Lemma filesWritten_issued jobs : filesWritten (concat (map writeIssued jobs)) = [].
Proof. induction jobs as [|j jobs IH]; [reflexivity | exact IH]. Qed.

Lemma filesWritten_resumed jobs :
  filesWritten (concat (concat (map writeResumed jobs)))
  = map (fun j => (jobFilePath j, jobContent j)) jobs.
Proof.
  induction jobs as [|j jobs IH]; [reflexivity|].
  change (concat (concat (map writeResumed (j :: jobs))))
    with ((concat (writeResumed j)) ++ concat (concat (map writeResumed jobs))).
  rewrite filesWritten_app, IH. reflexivity.
Qed.

Lemma startWrite_job u ext content root dnc job :
  startWrite w u ext content root dnc = inr job ->
  jobFilePath job = filePathFor w u ext root dnc /\ jobContent job = content.
Proof.
  unfold startWrite. intros H.
  apply bindR_inr in H as ([] & _ & H). apply bindR_inr in H as ([] & _ & H).
  injection H as <-. split; reflexivity.
Qed.

(** X23: whatever the schedule, the files written for a document are: the
    file with the extension [.html], at the path that [write] derives from
    the URL under [dist/client], with [htmlDocument] as content; and, exactly
    when [pageContextSerialized] is not [null], the file with the extension
    [.pageContext.json], with the serialized [pageContext] as content.  Each
    is written once. *)
Theorem document_files_are_written_once d root t :
  DocWrites w d root true t ->
  Permutation (filesWritten t)
    ((filePathFor w (url d) ".html" root (doNotCreateExtraDirectory d), htmlDocument d)
     :: match pageContextSerialized d with
        | Some serialized =>
            [(filePathFor w (url d) ".pageContext.json" root
                (doNotCreateExtraDirectory d), serialized)]
        | None => []
        end).
Proof.
  intros Hdoc. inversion Hdoc as [| |stretches _ Hrej Hsched]; subst.
  assert (Hfiles :
    map (fun j => (jobFilePath j, jobContent j)) (started (writeCalls w d root))
    = (filePathFor w (url d) ".html" root (doNotCreateExtraDirectory d), htmlDocument d)
      :: match pageContextSerialized d with
         | Some serialized =>
             [(filePathFor w (url d) ".pageContext.json" root
                 (doNotCreateExtraDirectory d), serialized)]
         | None => []
         end).
  { unfold writeCalls in *. cbn [firstRejection started] in *.
    destruct (startWrite w (url d) ".html" _ _ _) as [e|j1] eqn:E1; [discriminate|].
    apply startWrite_job in E1 as [P1 C1].
    destruct (pageContextSerialized d) as [serialized|]; cbn [started map].
    - cbn [firstRejection] in Hrej.
      destruct (startWrite w (url d) ".pageContext.json" _ _ _) as [e|j2] eqn:E2;
        [discriminate|].
      apply startWrite_job in E2 as [P2 C2]. cbn [started map]. congruence.
    - congruence. }
  rewrite <- Hfiles.
  rewrite filesWritten_app, filesWritten_issued. cbn [app].
  rewrite <- filesWritten_resumed. unfold filesWritten.
  apply Permutation_flat_map, concat_permutation, interleave_permutation.
  exact Hsched.
Qed.

End FilesWritten.

Section DemoFiles.
Import Prerender.

Lemma document_files_are_written_once_witness :
  Permutation (filesWritten Demo.sidecarFirst)
    [ ("/app/dist/client/movie/2/index.html", "<html>/movie/2</html>");
      ("/app/dist/client/movie/2/index.pageContext.json", "{}") ].
Proof.
  exact (document_files_are_written_once (Demo.site None JNull)
           Demo.movieDocument "/app" Demo.sidecarFirst sidecarFirst_scheduled).
Defined.

Lemma renderStaticPage_unexpected_url_witness :
  let w := Demo.withRoutes (Demo.site None JNull)
             (<["/pages/about" := RouteString "about"]> ∅) in
  renderStaticPage w false [] true [] "/pages/about" [] = (inl InternalError, []).
Proof.
  intros w.
  apply (renderStaticPage_unexpected_url w false [] true [] "/pages/about" "about" []);
    vm_compute; reflexivity.
Defined.

End DemoFiles.
